(** * Outline: collaborative document state and change notifications

    A shallow embedding of the server code that converts documents between
    their representations (server/models/helpers/DocumentHelper.tsx), keeps
    the collaborative state in the database
    (server/collaboration/PersistenceExtension.ts), sends emails
    (server/emails/templates/BaseEmail.tsx) and subscribes collaborators
    when a revision is created (NotificationsProcessor), with the
    properties of these functions that the specification states; and of
    the code around them: the document notification email, the flags,
    preferences and roles of the User model, and the team policy.

    Layout: the data model and the functions come first, one module per
    source file; the theorems follow, in the same order. *)

From Stdlib Require Import String Ascii List Bool.
From stdpp Require Import base list strings gmap.

Import ListNotations.
Local Open Scope string_scope.
Local Open Scope list_scope.

(* ===================================================================== *)
(** ** Strings as JavaScript uses them                                    *)
(* ===================================================================== *)

Module Str.

(** The double quote character, for attribute values. *)
Definition dquote : string := String (ascii_of_nat 34) EmptyString.

(** [String.prototype.includes]: [sub] occurs somewhere in [s]. *)
Fixpoint includes (s sub : string) : bool :=
  String.prefix sub s ||
  match s with
  | EmptyString => false
  | String _ rest => includes rest sub
  end.

(** Truthiness of a string: only the empty string is falsy. *)
Definition truthy (s : string) : bool :=
  match s with
  | EmptyString => false
  | String _ _ => true
  end.

Definition upper_ascii (c : ascii) : ascii :=
  let n := nat_of_ascii c in
  if Nat.leb 97 n && Nat.leb n 122 then ascii_of_nat (n - 32) else c.

Fixpoint toUpperCase (s : string) : string :=
  match s with
  | EmptyString => EmptyString
  | String c rest => String (upper_ascii c) (toUpperCase rest)
  end.

(** [s.split(sep)] for a one-character separator: the segments between
    the occurrences of [sep], always at least one segment. *)
Fixpoint split_aux (sep : ascii) (cur : string) (s : string) : list string :=
  match s with
  | EmptyString => [cur]
  | String c rest =>
      if Ascii.eqb c sep then cur :: split_aux sep EmptyString rest
      else split_aux sep (cur +:+ String c EmptyString) rest
  end.

Definition split (sep : ascii) (s : string) : list string :=
  split_aux sep EmptyString s.

End Str.

(* ===================================================================== *)
(** ** The DOM, as far as the helpers use it                              *)
(* ===================================================================== *)

Module Dom.

Set Warnings "-register-all".

(** A DOM node: a text node or an element with its attributes (in
    source order) and its child nodes. *)
Inductive Node : Type :=
| Text (data : string)
| Element (localName : string) (attributes : list (string * string))
          (childNodes : list Node).

Definition isElement (n : Node) : bool :=
  match n with
  | Text _ => false
  | Element _ _ _ => true
  end.

(** [node.nodeName]: the upper-cased tag name of an HTML element. *)
Definition nodeName (n : Node) : string :=
  match n with
  | Text _ => "#text"
  | Element name _ _ => Str.toUpperCase name
  end.

Fixpoint getAttribute (name : string) (attrs : list (string * string))
  : option string :=
  match attrs with
  | [] => None
  | (k, v) :: rest => if String.eqb k name then Some v else getAttribute name rest
  end.

Definition hasId (id : string) (n : Node) : bool :=
  match n with
  | Text _ => false
  | Element _ attrs _ =>
      match getAttribute "id" attrs with
      | Some v => String.eqb v id
      | None => false
      end
  end.

Definition hasTag (tag : string) (n : Node) : bool :=
  match n with
  | Text _ => false
  | Element name _ _ => String.eqb name tag
  end.

(** [node.textContent]: the text of all descendants, in order. *)
Fixpoint textContent (n : Node) : string :=
  match n with
  | Text s => s
  | Element _ _ cs =>
      (fix go (l : list Node) : string :=
         match l with
         | [] => EmptyString
         | c :: l' => textContent c +:+ go l'
         end) cs
  end.

(** *** Serialisation (the HTML fragment serialisation algorithm) *)

(** Strings are UTF-8 bytes: a no-break space is the bytes C2 A0. *)
Definition nbspLead : ascii := ascii_of_nat 194.
Definition nbspTrail : ascii := ascii_of_nat 160.

Fixpoint escapeText (s : string) : string :=
  match s with
  | EmptyString => EmptyString
  | String c rest =>
      if Ascii.eqb c "&" then "&amp;" +:+ escapeText rest
      else if Ascii.eqb c "<" then "&lt;" +:+ escapeText rest
      else if Ascii.eqb c ">" then "&gt;" +:+ escapeText rest
      else
        match rest with
        | String c' rest' =>
            if Ascii.eqb c nbspLead && Ascii.eqb c' nbspTrail
            then "&nbsp;" +:+ escapeText rest'
            else String c (escapeText rest)
        | EmptyString => String c EmptyString
        end
  end.

Fixpoint escapeAttr (s : string) : string :=
  match s with
  | EmptyString => EmptyString
  | String c rest =>
      if Ascii.eqb c "&" then "&amp;" +:+ escapeAttr rest
      else if Ascii.eqb c (ascii_of_nat 34) then "&quot;" +:+ escapeAttr rest
      else
        match rest with
        | String c' rest' =>
            if Ascii.eqb c nbspLead && Ascii.eqb c' nbspTrail
            then "&nbsp;" +:+ escapeAttr rest'
            else String c (escapeAttr rest)
        | EmptyString => String c EmptyString
        end
  end.

Fixpoint serializeAttrs (attrs : list (string * string)) : string :=
  match attrs with
  | [] => EmptyString
  | (k, v) :: rest =>
      " " +:+ k +:+ "=" +:+ Str.dquote +:+ escapeAttr v +:+ Str.dquote
      +:+ serializeAttrs rest
  end.

Definition voidElements : list string :=
  ["area"; "base"; "br"; "col"; "embed"; "hr"; "img"; "input"; "link";
   "meta"; "source"; "track"; "wbr"].

Definition isVoid (name : string) : bool :=
  existsb (String.eqb name) voidElements.

Fixpoint outerHTML (n : Node) : string :=
  match n with
  | Text s => escapeText s
  | Element name attrs cs =>
      "<" +:+ name +:+ serializeAttrs attrs +:+ ">" +:+
      (if isVoid name then EmptyString
       else
         (fix go (l : list Node) : string :=
            match l with
            | [] => EmptyString
            | c :: l' => outerHTML c +:+ go l'
            end) cs +:+ "</" +:+ name +:+ ">")
  end.

(** Serialisation of a list of sibling nodes. *)
Fixpoint serializeNodes (l : list Node) : string :=
  match l with
  | [] => EmptyString
  | c :: l' => outerHTML c +:+ serializeNodes l'
  end.

(** [element.innerHTML] *)
Definition innerHTML (n : Node) : string :=
  match n with
  | Text _ => EmptyString
  | Element _ _ cs => serializeNodes cs
  end.

(** *** Queries over a forest, in document order *)

(** The first node of the forest, in document order, satisfying [p]. *)
Fixpoint findNode (p : Node -> bool) (n : Node) : option Node :=
  if p n then Some n
  else
    match n with
    | Text _ => None
    | Element _ _ cs =>
        (fix go (l : list Node) : option Node :=
           match l with
           | [] => None
           | c :: l' =>
               match findNode p c with
               | Some r => Some r
               | None => go l'
               end
           end) cs
    end.

Fixpoint findFirst (p : Node -> bool) (l : list Node) : option Node :=
  match l with
  | [] => None
  | c :: l' =>
      match findNode p c with
      | Some r => Some r
      | None => findFirst p l'
      end
  end.

(** Replace the children of the first node, in document order,
    satisfying [p] by [f] of its children; [None] when no node does. *)
Fixpoint updateNode (p : Node -> bool) (f : list Node -> list Node)
         (n : Node) : option Node :=
  match n with
  | Text _ => None
  | Element name attrs cs =>
      if p n then Some (Element name attrs (f cs))
      else
        match
          (fix go (l : list Node) : option (list Node) :=
             match l with
             | [] => None
             | c :: l' =>
                 match updateNode p f c with
                 | Some c' => Some (c' :: l')
                 | None =>
                     match go l' with
                     | Some l'' => Some (c :: l'')
                     | None => None
                     end
                 end
             end) cs
        with
        | Some cs' => Some (Element name attrs cs')
        | None => None
        end
  end.

Fixpoint updateFirst (p : Node -> bool) (f : list Node -> list Node)
         (l : list Node) : option (list Node) :=
  match l with
  | [] => None
  | c :: l' =>
      match updateNode p f c with
      | Some c' => Some (c' :: l')
      | None =>
          match updateFirst p f l' with
          | Some l'' => Some (c :: l'')
          | None => None
          end
      end
  end.

Definition children (n : Node) : list Node :=
  match n with
  | Text _ => []
  | Element _ _ cs => cs
  end.

Definition withChildren (n : Node) (cs : list Node) : Node :=
  match n with
  | Text s => Text s
  | Element name attrs _ => Element name attrs cs
  end.

(** A selector that looks at the tag and the attributes of elements
    only, as [article] and [#content] do. *)
Definition shallow (p : Node -> bool) : Prop :=
  (forall s, p (Text s) = false) /\
  (forall name attrs cs cs',
      p (Element name attrs cs) = p (Element name attrs cs')).

(** *** Documents as jsdom parses them

    jsdom always builds an [html] element with a [head] and a [body];
    a document is given by the children of the two.  [new JSDOM(s)] of a
    string [s] that [serialize] produced is taken to give the document
    back, so the helpers pass documents where the source passes their
    serialisations and parses them again. *)
Record Document : Type := {
  head : list Node;
  body : list Node
}.

(** [dom.serialize()] *)
Definition serialize (d : Document) : string :=
  "<!DOCTYPE html><html><head>" +:+ serializeNodes (head d) +:+
  "</head><body>" +:+ serializeNodes (body d) +:+ "</body></html>".

(** The first element of the document, in document order, that
    satisfies [p]: the head is searched before the body. *)
Definition query (p : Node -> bool) (d : Document) : option Node :=
  match findFirst p (head d) with
  | Some r => Some r
  | None => findFirst p (body d)
  end.

(** Update the children of the first element satisfying [p]; the
    document is unchanged when there is none. *)
Definition update (p : Node -> bool) (f : list Node -> list Node)
           (d : Document) : Document :=
  match updateFirst p f (head d) with
  | Some h' => {| head := h'; body := body d |}
  | None =>
      match updateFirst p f (body d) with
      | Some b' => {| head := head d; body := b' |}
      | None => d
      end
  end.

End Dom.

(* ===================================================================== *)
(** ** Results of JavaScript calls                                        *)
(* ===================================================================== *)

Module Js.

(** Exceptions the modelled code throws or lets through. *)
Inductive Exn : Type :=
| Error (message : string)
| TypeError (message : string)
| EmptyResultError
| Rejected (reason : string).

(** A call returns a value or throws. *)
Inductive Outcome (A : Type) : Type :=
| Return (a : A)
| Throw (e : Exn).

Arguments Return {A} a.
Arguments Throw {A} e.

Definition bind {A B : Type} (m : Outcome A) (k : A -> Outcome B) : Outcome B :=
  match m with
  | Return a => k a
  | Throw e => Throw e
  end.

Definition throws {A : Type} (m : Outcome A) : bool :=
  match m with
  | Return _ => false
  | Throw _ => true
  end.

End Js.

Notation "x <- m ;; k" := (Js.bind m (fun x => k))
  (at level 100, m at next level, right associativity, only parsing).

(* ===================================================================== *)
(** ** Models: the rows the helpers read and write                        *)
(* ===================================================================== *)

Module Models.

(** A Document row.  [state] is the nullable binary column holding the
    collaborative state; [changed] lists the fields marked dirty with
    [document.changed(field, true)]. *)
Record Document : Type := {
  id : string;
  title : string;
  text : string;
  state : option (list Byte.byte);
  version : option nat;
  changed : list string
}.

(** A Revision row: a snapshot, without collaborative state. *)
Record Revision : Type := {
  rev_id : string;
  rev_title : string;
  rev_text : string;
  rev_version : option nat
}.

(** [Document | Revision] *)
Inductive DocumentOrRevision : Type :=
| OfDocument (d : Document)
| OfRevision (r : Revision).

Definition titleOf (x : DocumentOrRevision) : string :=
  match x with
  | OfDocument d => title d
  | OfRevision r => rev_title r
  end.

Definition textOf (x : DocumentOrRevision) : string :=
  match x with
  | OfDocument d => text d
  | OfRevision r => rev_text r
  end.

(** ["state" in document && document.state]: a revision has no such
    field; a document has it when the column is not null (a Buffer is
    truthy whatever its length). *)
Definition stateOf (x : DocumentOrRevision) : option (list Byte.byte) :=
  match x with
  | OfDocument d => state d
  | OfRevision _ => None
  end.

End Models.

(* ===================================================================== *)
(** ** The libraries the server code calls                                *)
(* ===================================================================== *)

(** Options of the HTML output ([HTMLOptions]); every field is optional. *)
Record HTMLOptions : Type := {
  includeTitle : option bool;
  includeStyles : option bool;
  centered : option bool
}.

(** What rendering the containing React tree with styled-components
    yields: the generated class names and the collected style tags, which
    are [style] elements; [None] when [sheet.getStyleTags()] throws after
    the tree was rendered. *)
Record Styles : Type := {
  styleTags : option (list Dom.Node);
  centeredClass : string;
  editorContainerClass : string
}.

(** The external libraries: the Markdown parser and the ProseMirror schema
    ([@server/editor], prosemirror-model), Yjs and y-prosemirror, React
    with styled-components, node-htmldiff, and [markdownToYDoc].  Their
    calls are functions of their arguments; rendering the styles is
    allowed to throw, because the source catches that, and so are the
    calls of [applyMarkdownToDocument], through [Failures] below. *)
Class Engine : Type := {
  PMNode : Type;
  PMJSON : Type;
  YDoc : Type;
  XmlFragment : Type;
  (** [parser.parse(text)] *)
  parser_parse : string -> PMNode;
  (** [new Y.Doc()] *)
  Y_Doc : YDoc;
  (** [Y.applyUpdate(ydoc, update)], as the document it leaves *)
  Y_applyUpdate : YDoc -> list Byte.byte -> YDoc;
  (** [Y.encodeStateAsUpdate(ydoc)] *)
  Y_encodeStateAsUpdate : YDoc -> list Byte.byte;
  (** [yDocToProsemirrorJSON(ydoc, field)] *)
  yDocToProsemirrorJSON : YDoc -> string -> PMJSON;
  (** [Node.fromJSON(schema, json)] *)
  Node_fromJSON : PMJSON -> PMNode;
  (** [ydoc.get(field, Y.XmlFragment)] *)
  Y_get : YDoc -> string -> XmlFragment;
  (** [type.doc]: the document that owns the fragment, if any *)
  fragment_doc : XmlFragment -> option YDoc;
  (** [updateYFragment(type.doc, type, node, new Map())]: the call changes
      the fragment in place, inside the document it was taken from; the
      result is that document after the call *)
  updateYFragment : YDoc -> XmlFragment -> PMNode -> YDoc;
  (** [ydoc.isEmpty(field)] *)
  Y_isEmpty : YDoc -> string -> bool;
  (** [markdownToYDoc(text, field)] *)
  markdownToYDoc : string -> string -> YDoc;
  (** [DOMSerializer.fromSchema(schema).serializeFragment(node.content)]:
      the DOM nodes of the top-level blocks *)
  serializeFragment : PMNode -> list Dom.Node;
  (** [isRTL(title)] *)
  isRTL : string -> bool;
  (** [renderToString(sheet.collectStyles(...))] with
      [sheet.getStyleTags()], for the direction of the title, whether the
      article is centered and whether styles are left out; [None] when
      rendering throws *)
  renderStyles : bool -> bool -> bool -> option Styles;
  (** [diff(beforeHtml, afterHtml)] of node-htmldiff, on the parsed
      content *)
  htmldiff : list Dom.Node -> list Dom.Node -> list Dom.Node
}.

(** The Yjs and parser calls of [applyMarkdownToDocument] stand outside
    any handler, and they can throw: [Y.applyUpdate] on a state that
    does not decode, for one.  For each call, the exception that it
    throws on these arguments, if it throws. *)
Class Failures {E : Engine} : Type := {
  (** [Y.applyUpdate(ydoc, update)] *)
  Y_applyUpdate_throws : YDoc -> list Byte.byte -> option Js.Exn;
  (** [ydoc.get(field, Y.XmlFragment)] *)
  Y_get_throws : YDoc -> string -> option Js.Exn;
  (** [parser.parse(text)] *)
  parser_parse_throws : string -> option Js.Exn;
  (** [updateYFragment(type.doc, type, node, new Map())] *)
  updateYFragment_throws : YDoc -> XmlFragment -> PMNode -> option Js.Exn;
  (** [Y.encodeStateAsUpdate(ydoc)] *)
  Y_encodeStateAsUpdate_throws : YDoc -> option Js.Exn
}.

(* ===================================================================== *)
(** ** server/models/helpers/DocumentHelper.tsx                           *)
(* ===================================================================== *)

Module DocumentHelper.
Import Models Js.

Section WithEngine.
Context `{E : Engine}.

(** [DocumentHelper.toProsemirror] *)
Definition toProsemirror (document : DocumentOrRevision) : PMNode :=
  match stateOf document with
  | Some st =>
      let ydoc := Y_applyUpdate Y_Doc st in
      Node_fromJSON (yDocToProsemirrorJSON ydoc "default")
  | None => parser_parse (textOf document)
  end.

(** [options?.includeTitle !== false] *)
Definition withTitle (options : option HTMLOptions) : bool :=
  match options with
  | Some o => match includeTitle o with Some false => false | _ => true end
  | None => true
  end.

(** [options?.includeStyles === false] *)
Definition withoutStyles (options : option HTMLOptions) : bool :=
  match options with
  | Some o => match includeStyles o with Some false => true | _ => false end
  | None => false
  end.

(** [options?.centered], as a condition *)
Definition isCentered (options : option HTMLOptions) : bool :=
  match options with
  | Some o => match centered o with Some true => true | _ => false end
  | None => false
  end.

Definition dir (rtl : bool) : string := if rtl then "rtl" else "ltr".

(** The fragment [children] of [toHTML]: the title and the editor
    container with the empty [#content] target. *)
Definition shellChildren (title : string) (rtl : bool)
           (options : option HTMLOptions) (st : Styles) : list Dom.Node :=
  (if withTitle options
   then [Dom.Element "h1" [("dir", dir rtl)] [Dom.Text title]]
   else []) ++
  [Dom.Element "div"
     [("dir", dir rtl); ("class", editorContainerClass st)]
     [Dom.Element "div" [("id", "content"); ("class", "ProseMirror")] []]].

(** The containing document that [toHTML] renders first and hands to
    jsdom.  When rendering throws, the error is logged, and what stayed
    undefined of [html] and [styleTags] is spelled out by the template
    string, as text at the start of the body. *)
Definition renderShell (title : string) (options : option HTMLOptions)
  : Dom.Document :=
  let rtl := isRTL title in
  match renderStyles rtl (isCentered options) (withoutStyles options) with
  | Some st =>
      let kids := shellChildren title rtl options st in
      let article :=
        if withoutStyles options then Dom.Element "article" [] kids
        else if isCentered options
             then Dom.Element "article" [("class", centeredClass st)] kids
             else Dom.Element "article" [] kids in
      {| Dom.head :=
           if withoutStyles options then [] else default [] (styleTags st);
         Dom.body :=
           (if withoutStyles options then []
            else match styleTags st with
                 | Some _ => []
                 | None => [Dom.Text "undefined"]
                 end) ++ [article] |}
  | None =>
      {| Dom.head := [];
         Dom.body :=
           [Dom.Text (if withoutStyles options then "undefined"
                      else "undefinedundefined")] |}
  end.

(** [DocumentHelper.toHTML], before [dom.serialize()]: the content is
    serialised into the element with id [content], when there is one. *)
Definition toHTMLDocument (document : DocumentOrRevision)
           (options : option HTMLOptions) : Dom.Document :=
  let node := toProsemirror document in
  let dom := renderShell (titleOf document) options in
  Dom.update (Dom.hasId "content")
             (fun cs => cs ++ serializeFragment node) dom.

(** [DocumentHelper.toHTML] *)
Definition toHTML (document : DocumentOrRevision)
           (options : option HTMLOptions) : string :=
  Dom.serialize (toHTMLDocument document options).

Definition noArticle : Exn :=
  TypeError "Cannot read properties of undefined (reading 'innerHTML')".

(** [getElementsByTagName("article")[0].innerHTML] *)
Definition articleContent (d : Dom.Document) : Outcome (list Dom.Node) :=
  match Dom.query (Dom.hasTag "article") d with
  | Some a => Return (Dom.children a)
  | None => Throw noArticle
  end.

(** [article.innerHTML = content] on [querySelector("article")] *)
Definition setArticleContent (content : list Dom.Node) (d : Dom.Document)
  : Dom.Document :=
  Dom.update (Dom.hasTag "article") (fun _ => content) d.

(** [DocumentHelper.diff], before the final [serialize()] *)
Definition diffDocument (before : option DocumentOrRevision)
           (after : Revision) (options : option HTMLOptions)
  : Outcome Dom.Document :=
  match before with
  | None => Return (toHTMLDocument (OfRevision after) options)
  | Some b =>
      let beforeDOM := toHTMLDocument b options in
      let afterDOM := toHTMLDocument (OfRevision after) options in
      beforeContent <- articleContent beforeDOM ;;
      afterContent <- articleContent afterDOM ;;
      let diffedContent := htmldiff beforeContent afterContent in
      Return (setArticleContent diffedContent beforeDOM)
  end.

(** [DocumentHelper.diff] *)
Definition diff (before : option DocumentOrRevision) (after : Revision)
           (options : option HTMLOptions) : Outcome string :=
  d <- diffDocument before after options ;;
  Return (Dom.serialize d).

(** The shell of a rendering: the document with its article emptied. *)
Definition shellOf (d : Dom.Document) : Dom.Document :=
  setArticleContent [] d.

(** [diff] as the specification words it, for comparison with [diff]:
    the diffed content is re-embedded into the shell of the [after]
    rendering. *)
Definition diff_as_specified (before : option DocumentOrRevision)
           (after : Revision) (options : option HTMLOptions)
  : Outcome string :=
  match before with
  | None => Return (toHTML (OfRevision after) options)
  | Some b =>
      let beforeDOM := toHTMLDocument b options in
      let afterDOM := toHTMLDocument (OfRevision after) options in
      beforeContent <- articleContent beforeDOM ;;
      afterContent <- articleContent afterDOM ;;
      let diffedContent := htmldiff beforeContent afterContent in
      Return (Dom.serialize (setArticleContent diffedContent afterDOM))
  end.

End WithEngine.

(** *** The compaction of [toEmailDiff] *)

(** [containsDiffElement] *)
Definition containsDiffElement (node : option Dom.Node) : bool :=
  match node with
  | Some n => Str.includes (Dom.innerHTML n) "data-operation-index"
  | None => false
  end.

(** The break marker [br], one clone per insertion. *)
Definition br : Dom.Node :=
  Dom.Element "div" [("class", "diff-context-break")] [Dom.Text "…"].

(** [node?.nodeName === "P"] *)
Definition isP (node : option Dom.Node) : bool :=
  match node with
  | Some n => String.eqb (Dom.nodeName n) "P"
  | None => false
  end.

(** [childNode.nextElementSibling]: the siblings after the visited node
    are still as they were. *)
Definition nextElementSibling (following : list Dom.Node) : option Dom.Node :=
  List.find Dom.isElement following.

(** [childNode.previousElementSibling]: read from the live child list,
    from which earlier nodes may have been removed. *)
Definition previousElementSibling (preceding : list Dom.Node)
  : option Dom.Node :=
  List.find Dom.isElement (rev preceding).

(** The state of the loop: the live children before the visited node and
    the two flags. *)
Record Loop : Type := {
  live : list Dom.Node;
  previousNodeRemoved : bool;
  previousDiffClipped : bool
}.

(** What the loop does with one block. *)
Inductive Action : Type :=
| KeepChanged
| KeepLeading
| KeepTrailing
| Remove.

(** The branch the loop body takes at [childNode], whose live siblings
    are [preceding] and [following]. *)
Definition decide_action (preceding : list Dom.Node) (childNode : Dom.Node)
           (following : list Dom.Node) : Action :=
  if containsDiffElement (Some childNode) then KeepChanged
  else if isP (Some childNode)
          && Str.truthy (Dom.textContent childNode)
          && isP (nextElementSibling following)
          && containsDiffElement (nextElementSibling following)
  then KeepLeading
  else if isP (Some childNode)
          && Str.truthy (Dom.textContent childNode)
          && isP (previousElementSibling preceding)
          && containsDiffElement (previousElementSibling preceding)
  then KeepTrailing
  else Remove.

(** One iteration of the loop body. *)
Definition visit (st : Loop) (childNode : Dom.Node) (following : list Dom.Node)
  : Loop :=
  match decide_action (live st) childNode following with
  | KeepChanged =>
      {| live := live st
                 ++ (if previousNodeRemoved st && previousDiffClipped st
                     then [br] else [])
                 ++ [childNode];
         previousNodeRemoved := false;
         previousDiffClipped := true |}
  | KeepLeading =>
      {| live := live st
                 ++ (if previousDiffClipped st then [br] else [])
                 ++ [childNode];
         previousNodeRemoved := false;
         previousDiffClipped := previousDiffClipped st |}
  | KeepTrailing =>
      {| live := live st ++ [childNode];
         previousNodeRemoved := false;
         previousDiffClipped := previousDiffClipped st |}
  | Remove =>
      {| live := live st;
         previousNodeRemoved := true;
         previousDiffClipped := previousDiffClipped st |}
  end.

(** Children that are not elements are not in the static list
    [#content > *]: the loop passes them by and they stay in place. *)
Definition pass (st : Loop) (node : Dom.Node) : Loop :=
  {| live := live st ++ [node];
     previousNodeRemoved := previousNodeRemoved st;
     previousDiffClipped := previousDiffClipped st |}.

(** The loop over the static list [#content > *]: the element children
    are visited in document order. *)
Fixpoint loop (st : Loop) (contents : list Dom.Node) : Loop :=
  match contents with
  | [] => st
  | childNode :: following =>
      if Dom.isElement childNode
      then loop (visit st childNode following) following
      else loop (pass st childNode) following
  end.

Definition initial : Loop :=
  {| live := []; previousNodeRemoved := false; previousDiffClipped := false |}.

(** The loop stopped early: the state after the nodes [visited], when
    [following] are the siblings after them. *)
Fixpoint run (st : Loop) (visited following : list Dom.Node) : Loop :=
  match visited with
  | [] => st
  | childNode :: more =>
      if Dom.isElement childNode
      then run (visit st childNode (more ++ following)) more following
      else run (pass st childNode) more following
  end.

(** The nodes that one iteration adds to the live children. *)
Definition emitted (st : Loop) (childNode : Dom.Node)
           (following : list Dom.Node) : list Dom.Node :=
  match decide_action (live st) childNode following with
  | KeepChanged =>
      (if previousNodeRemoved st && previousDiffClipped st then [br] else [])
      ++ [childNode]
  | KeepLeading =>
      (if previousDiffClipped st then [br] else []) ++ [childNode]
  | KeepTrailing => [childNode]
  | Remove => []
  end.

(** The nodes that the loop adds to the live children while it goes
    through [visited]. *)
Fixpoint written (st : Loop) (visited following : list Dom.Node)
  : list Dom.Node :=
  match visited with
  | [] => []
  | childNode :: more =>
      if Dom.isElement childNode
      then emitted st childNode (more ++ following)
           ++ written (visit st childNode (more ++ following)) more following
      else childNode :: written (pass st childNode) more following
  end.

(** The state in which the loop reaches a block that stands between
    [preceding] and [following] in the content. *)
Definition reach (preceding : list Dom.Node) (childNode : Dom.Node)
           (following : list Dom.Node) : Loop :=
  run initial preceding (childNode :: following).

(** What the loop does with that block. *)
Definition fate (preceding : list Dom.Node) (childNode : Dom.Node)
           (following : list Dom.Node) : Action :=
  decide_action (live (reach preceding childNode following)) childNode following.

Definition retained (a : Action) : bool :=
  match a with
  | Remove => false
  | _ => true
  end.

(** A block is changed when it contains a diff marker. *)
Definition changed (n : Dom.Node) : bool := containsDiffElement (Some n).

(** Every break marker of the list is followed by a node that is not a
    break marker. *)
Fixpoint breaksFollowed (l : list Dom.Node) : Prop :=
  match l with
  | [] => True
  | x :: rest =>
      (x = br -> match rest with
                 | [] => False
                 | y :: _ => y <> br
                 end)
      /\ breaksFollowed rest
  end.

(** The first element of the live children is not a break marker, and
    there is one once a changed block was kept. *)
Definition clipped_has_element (st : Loop) : Prop :=
  List.find Dom.isElement (live st) <> Some br /\
  (previousDiffClipped st = true -> List.find Dom.isElement (live st) <> None).

(** A changed paragraph, the only neighbour that makes a paragraph
    context. *)
Definition changedParagraph (n : option Dom.Node) : bool :=
  isP n && containsDiffElement n.

(** The children of [#content] once the loop has run. *)
Definition compact (contents : list Dom.Node) : list Dom.Node :=
  live (loop initial contents).

(** The shape of a compacted content: the second list with some nodes
    left out and break markers put in. *)
Inductive Compacted : list Dom.Node -> list Dom.Node -> Prop :=
| Compacted_nil : Compacted [] []
| Compacted_keep n out contents :
    Compacted out contents -> Compacted (n :: out) (n :: contents)
| Compacted_drop n out contents :
    Compacted out contents -> Compacted out (n :: contents)
| Compacted_break out contents :
    Compacted out contents -> Compacted (br :: out) contents.

(** The template string on the last line of [toEmailDiff]. *)
Definition headAndBody (d : Dom.Document) : string :=
  Dom.serializeNodes (Dom.head d) +:+ " " +:+ Dom.serializeNodes (Dom.body d).

Section WithEngine.
Context `{E : Engine}.

(** [DocumentHelper.toEmailDiff].  [#content > *] is read as the
    children of the element with id [content] that [toHTML] creates,
    the first one in document order. *)
Definition toEmailDiff (before : option DocumentOrRevision)
           (after : Revision) (options : option HTMLOptions)
  : Outcome string :=
  match before with
  | None => Return EmptyString
  | Some b =>
      doc <- diffDocument (Some b) after options ;;
      Return (headAndBody (Dom.update (Dom.hasId "content") compact doc))
  end.

Context {F : @Failures E}.

(** A library call that can throw: its exception, or else its result. *)
Definition call {A : Type} (thrown : option Exn) (result : A) : Outcome A :=
  match thrown with
  | Some e => Throw e
  | None => Return result
  end.

(** [DocumentHelper.applyMarkdownToDocument]: the document as the call
    leaves it, and whether the call returns it or throws.  The text is
    assigned first; the state is assigned after the last library call. *)
Definition applyMarkdownToDocument (document : Document) (text : string)
           (append : bool) : Document * Outcome unit :=
  let document1 :=
    {| Models.id := Models.id document;
       Models.title := Models.title document;
       Models.text := if append then Models.text document +:+ text else text;
       Models.state := Models.state document;
       Models.version := Models.version document;
       Models.changed := Models.changed document |} in
  match Models.state document1 with
  | Some st =>
      let merged : Outcome (list Byte.byte) :=
        ydoc <- call (Y_applyUpdate_throws Y_Doc st) (Y_applyUpdate Y_Doc st) ;;
        type <- call (Y_get_throws ydoc "default") (Y_get ydoc "default") ;;
        doc <- call (parser_parse_throws (Models.text document1))
                    (parser_parse (Models.text document1)) ;;
        match fragment_doc type with
        | None => Throw (Error "type.doc not found")
        | Some owner =>
            updated <- call (updateYFragment_throws owner type doc)
                            (updateYFragment owner type doc) ;;
            call (Y_encodeStateAsUpdate_throws updated)
                 (Y_encodeStateAsUpdate updated)
        end in
      match merged with
      | Throw e => (document1, Throw e)
      | Return st' =>
          ({| Models.id := Models.id document1;
              Models.title := Models.title document1;
              Models.text := Models.text document1;
              Models.state := Some st';
              Models.version := Models.version document1;
              Models.changed := Models.changed document1 ++ ["state"] |},
           Return tt)
      end
  | None => (document1, Return tt)
  end.

End WithEngine.

End DocumentHelper.

(* ===================================================================== *)
(** ** server/collaboration/PersistenceExtension.ts                       *)
(* ===================================================================== *)

Module PersistenceExtension.
Import Models Js.

(** [context.user?.id]: the id of the connection's user, or undefined. *)
Definition UserId : Type := option string.

Inductive Lock : Type := LOCK_UPDATE.

(** What reaches the database, in order. *)
Inductive DbEvent : Type :=
| Begin
| FindOne (whereId : option string) (lock : option Lock)
| Update (rowId : string) (newState : list Byte.byte)
| Commit
| Rollback.

Inductive LogEntry : Type :=
| Info (category message : string)
| Debug (category message : string)
| LogError (message : string) (err : Exn) (documentId : option string)
           (userId : UserId).

(** The database rows, the statements issued and the log. *)
Record World : Type := {
  db : gmap string Document;
  events : list DbEvent;
  logs : list LogEntry
}.

Definition emit (e : DbEvent) (w : World) : World :=
  {| db := db w; events := events w ++ [e]; logs := logs w |}.

Definition log (l : LogEntry) (w : World) : World :=
  {| db := db w; events := events w; logs := logs w ++ [l] |}.

(** [sequelize.transaction(async (transaction) => body)]: commits when
    the body returns, rolls the rows back and rethrows when it throws. *)
Definition transaction {A : Type} (body : World -> World * Outcome A)
           (w : World) : World * Outcome A :=
  match body (emit Begin w) with
  | (w1, Return a) => (emit Commit w1, Return a)
  | (w1, Throw e) =>
      (emit Rollback {| db := db w; events := events w1; logs := logs w1 |},
       Throw e)
  end.

(** [Document.scope("withState").findOne] with [rejectOnEmpty: true]. *)
Definition findOne (whereId : option string) (lock : option Lock) (w : World)
  : World * Outcome Document :=
  let w1 := emit (FindOne whereId lock) w in
  match whereId with
  | None => (w1, Throw (Error "WHERE parameter id has invalid undefined value"))
  | Some i =>
      match db w !! i with
      | Some d => (w1, Return d)
      | None => (w1, Throw EmptyResultError)
      end
  end.

(** [document.update({ state }, { transaction })] *)
Definition updateState (d : Document) (st : list Byte.byte) (w : World) : World :=
  let d' := {| Models.id := Models.id d;
               Models.title := Models.title d;
               Models.text := Models.text d;
               Models.state := Some st;
               Models.version := Models.version d;
               Models.changed := Models.changed d |} in
  emit (Update (Models.id d) st)
       {| db := <[Models.id d := d']> (db w); events := events w; logs := logs w |}.

(** [const [, documentId] = documentName.split(".")] *)
Definition documentIdOf (documentName : string) : option string :=
  nth_error (Str.split "." documentName) 1.

(** [Set.prototype.add]: a set keeps its members in insertion order. *)
Definition set_add (x : UserId) (s : list UserId) : list UserId :=
  if bool_decide (x ∈ s) then s else s ++ [x].

(** [Array.prototype.pop] on the array of members: the last member, or
    undefined. *)
Definition pop (ids : list UserId) : UserId :=
  match last ids with
  | Some x => x
  | None => None
  end.

(** Every set in the map of editors has a member: [onChange] is the
    only place that puts a set there, and it adds the editor to it. *)
Definition populated (collaborators : gmap string (list UserId)) : Prop :=
  forall documentName editors,
    collaborators !! documentName = Some editors -> editors <> [].

Section WithEngine.
Context `{E : Engine}.

(** [documentCollaborativeUpdater({ documentId, ydoc, userId })], a
    command of the repository that is given here by what it does to
    the world and whether it throws. *)
Variable documentCollaborativeUpdater :
  option string -> YDoc -> UserId -> World -> World * Outcome unit.

(** [onLoadDocument]: [None] is the bare [return]. *)
Definition onLoadDocument (documentName : string) (document : YDoc)
           (w : World) : World * Outcome (option YDoc) :=
  let documentId := documentIdOf documentName in
  let fieldName := "default" in
  if negb (Y_isEmpty document fieldName) then (w, Return None)
  else
    transaction
      (fun w0 =>
         match findOne documentId (Some LOCK_UPDATE) w0 with
         | (w1, Throw e) => (w1, Throw e)
         | (w1, Return row) =>
             match Models.state row with
             | Some st =>
                 let w2 := log (Info "database"
                             ("Document " +:+ default "undefined" documentId
                              +:+ " is in database state")) w1 in
                 (w2, Return (Some (Y_applyUpdate Y_Doc st)))
             | None =>
                 let w2 := log (Info "database"
                             ("Document " +:+ default "undefined" documentId
                              +:+ " is not in state, creating from markdown")) w1 in
                 let ydoc := markdownToYDoc (Models.text row) fieldName in
                 let st := Y_encodeStateAsUpdate ydoc in
                 (updateState row st w2, Return (Some ydoc))
             end
         end)
      w.

(** [onChange], without its debug line: the editors of each document
    name since it was last stored. *)
Definition onChange (collaborators : gmap string (list UserId))
           (user : UserId) (documentName : string)
  : gmap string (list UserId) :=
  let st := default [] (collaborators !! documentName) in
  <[documentName := set_add user st]> collaborators.

(** [onStoreDocument]: the map of editors and the world it leaves, and
    whether it throws. *)
Definition onStoreDocument (collaborators : gmap string (list UserId))
           (document : YDoc) (user : UserId) (documentName : string)
           (w : World)
  : gmap string (list UserId) * World * Outcome unit :=
  let documentId := documentIdOf documentName in
  let collaboratorIds :=
    match collaborators !! documentName with
    | Some s => s
    | None => [user]
    end in
  let collaborators' := delete documentName collaborators in
  match documentCollaborativeUpdater documentId document
          (pop collaboratorIds) w with
  | (w1, Return _) => (collaborators', w1, Return tt)
  | (w1, Throw err) =>
      (collaborators',
       log (LogError "Unable to persist document" err documentId user) w1,
       Return tt)
  end.

(** The [try] block of [onStoreDocument] for a given author: the world
    after the document persistence, with the log line when it threw. *)
Definition handOff (documentName : string) (document : YDoc)
           (author user : UserId) (w : World) : World :=
  match documentCollaborativeUpdater (documentIdOf documentName) document
          author w with
  | (w1, Return _) => w1
  | (w1, Throw err) =>
      log (LogError "Unable to persist document" err
                    (documentIdOf documentName) user) w1
  end.

End WithEngine.

End PersistenceExtension.

(* ===================================================================== *)
(** ** server/emails/templates/BaseEmail.tsx                              *)
(* ===================================================================== *)

Module BaseEmail.
Import Js.

(** [NotificationMetadata] *)
Record NotificationMetadata : Type := {
  notificationId : option string
}.

Inductive LogEntry : Type :=
| Info (category message : string)
| LogError (message : string) (err : Exn) (metadata : option NotificationMetadata).

Section Template.
(** The props of the template ([T]), what [beforeSend] adds ([S]) and
    the rendered React element. *)
Variables (T S Component : Type).

(** [props.to] *)
Variable to : T -> string.

(** [{ ...this.props, ...(bsResponse ?? {}) }] *)
Definition Data : Type := (T * option S)%type.

(** What [beforeSend] resolves to: additional data, or [false]
    ([Aborted]). *)
Inductive BeforeSend : Type :=
| Additional (s : S)
| Aborted.

(** A template: its name ([this.constructor.name]), the abstract
    methods and the optional hooks. *)
Record Template : Type := {
  name : string;
  subject : Data -> string;
  preview : Data -> string;
  renderAsText : Data -> string;
  render : Data -> Component;
  headCSS : option (Data -> option string);
  beforeSend : option (T -> Outcome BeforeSend)
}.

(** The argument of [mailer.sendMail]. *)
Record Mail : Type := {
  mail_to : string;
  mail_subject : string;
  mail_previewText : string;
  mail_component : Component;
  mail_text : string;
  mail_headCSS : option string
}.

(** The mails handed to the transport, the metric counters
    incremented (with the template name), the log and the
    [emailedAt] column of the notifications. *)
Record World : Type := {
  outbox : list Mail;
  metrics : list (string * string);
  logs : list LogEntry;
  emailedAt : gmap string (option nat)
}.

(** Whether [mailer.sendMail] rejects a mail, and whether
    [Notification.update] rejects for a notification id. *)
Variable sendMailFails : Mail -> option Exn.
Variable updateFails : string -> option Exn.

(** [new Date()] *)
Variable now : nat.

(** [mailer.sendMail(mail)] *)
Definition sendMail (m : Mail) (w : World) : World * Outcome unit :=
  match sendMailFails m with
  | Some e => (w, Throw e)
  | None =>
      ({| outbox := outbox w ++ [m]; metrics := metrics w;
          logs := logs w; emailedAt := emailedAt w |}, Return tt)
  end.

(** [Notification.update({ emailedAt: new Date() }, { where: { id } })] *)
Definition notificationUpdate (nid : string) (w : World)
  : World * Outcome unit :=
  match updateFails nid with
  | Some e => (w, Throw e)
  | None =>
      ({| outbox := outbox w; metrics := metrics w; logs := logs w;
          emailedAt := alter (fun _ => Some now) nid (emailedAt w) |},
       Return tt)
  end.

Definition increment (key templateName : string) (w : World) : World :=
  {| outbox := outbox w; metrics := metrics w ++ [(key, templateName)];
     logs := logs w; emailedAt := emailedAt w |}.

Definition log (l : LogEntry) (w : World) : World :=
  {| outbox := outbox w; metrics := metrics w; logs := logs w ++ [l];
     emailedAt := emailedAt w |}.

Definition mailOf (tpl : Template) (props : T) (data : Data) : Mail :=
  {| mail_to := to props;
     mail_subject := subject tpl data;
     mail_previewText := preview tpl data;
     mail_component := render tpl data;
     mail_text := renderAsText tpl data;
     mail_headCSS := match headCSS tpl with
                     | Some css => css data
                     | None => None
                     end |}.

(** [this.metadata?.notificationId], when truthy *)
Definition notificationIdOf (metadata : option NotificationMetadata)
  : option string :=
  match metadata with
  | Some md =>
      match notificationId md with
      | Some nid => if Str.truthy nid then Some nid else None
      | None => None
      end
  | None => None
  end.

(** The part of [send] after the [beforeSend] hook. *)
Definition deliver (tpl : Template) (props : T)
           (metadata : option NotificationMetadata) (data : Data)
           (w : World) : World * Outcome unit :=
  match sendMail (mailOf tpl props data) w with
  | (w1, Throw err) =>
      (increment "email.sending_failed" (name tpl) w1, Throw err)
  | (w1, Return _) =>
      let w2 := increment "email.sent" (name tpl) w1 in
      match notificationIdOf metadata with
      | Some nid =>
          match notificationUpdate nid w2 with
          | (w3, Throw err) =>
              (log (LogError "Failed to update notification" err metadata) w3,
               Return tt)
          | (w3, Return _) => (w3, Return tt)
          end
      | None => (w2, Return tt)
      end
  end.

(** The first lines of [send]: the data for the template, [None] when
    the [beforeSend] hook resolves to [false]. *)
Definition gather (tpl : Template) (props : T) : Outcome (option Data) :=
  match beforeSend tpl with
  | Some hook =>
      match hook props with
      | Return (Additional s) => Return (Some (props, Some s))
      | Return Aborted => Return None
      | Throw e => Throw e
      end
  | None => Return (Some (props, None))
  end.

(** [BaseEmail.send] *)
Definition send (tpl : Template) (props : T)
           (metadata : option NotificationMetadata) (w : World)
  : World * Outcome unit :=
  match gather tpl props with
  | Throw e => (w, Throw e)
  | Return None =>
      (log (Info "email"
              ("Email " +:+ name tpl +:+ " not sent due to beforeSend hook")) w,
       Return tt)
  | Return (Some data) => deliver tpl props metadata data w
  end.

End Template.

Arguments name {T S Component} _.
Arguments beforeSend {T S Component} _.
Arguments outbox {Component} _.
Arguments metrics {Component} _.
Arguments logs {Component} _.
Arguments emailedAt {Component} _.

End BaseEmail.

(* ===================================================================== *)
(** ** server/queues/processors/NotificationsProcessor.ts                 *)
(* ===================================================================== *)

Module NotificationsProcessor.

(** A Subscription row; [deletedAt] is set when it is soft-deleted. *)
Record Subscription : Type := {
  userId : string;
  documentId : string;
  event : string;
  enabled : bool;
  deletedAt : option nat
}.

(** An Event row, as far as the tests read it. *)
Record Event : Type := {
  ev_name : string;
  ev_userId : string;
  ev_documentId : string
}.

Record Store : Type := {
  subscriptions : list Subscription;
  events : list Event
}.

Definition isFor (user document kind : string) (s : Subscription) : bool :=
  String.eqb (userId s) user && String.eqb (documentId s) document
  && String.eqb (event s) kind.

Definition softDeleted (s : Subscription) : bool :=
  match deletedAt s with
  | Some _ => true
  | None => false
  end.

(** Modelled from the spec: NotificationsProcessor.ts is not among the
    sources, only its tests are.  The user "already holds an enabled or
    soft-deleted Subscription for the update event". *)
Definition holds (subs : list Subscription) (user document : string) : bool :=
  existsb (fun s => isFor user document "documents.update" s
                    && (enabled s || softDeleted s)) subs.

(** Modelled from the spec: the subscription created automatically for
    a collaborator. *)
Definition newSubscription (document user : string) : Subscription :=
  {| userId := user; documentId := document;
     event := "documents.update"; enabled := true; deletedAt := None |}.

(** Modelled from the spec: the [subscriptions.create] event emitted for
    a creation. *)
Definition newEvent (document user : string) : Event :=
  {| ev_name := "subscriptions.create"; ev_userId := user;
     ev_documentId := document |}.

Definition subscribe (user document : string) (st : Store) : Store :=
  {| subscriptions := subscriptions st ++ [newSubscription document user];
     events := events st ++ [newEvent document user] |}.

(** Modelled from the spec: the side effect of the revision-created
    fanout, which the sources do not contain.  "For every collaborator
    on the document who does not already hold an enabled or soft-deleted
    Subscription for the update event, create one automatically (in
    collaborator order) and emit a subscription-created event per
    creation"; existence is checked in the store, as section 5
    requires. *)
Fixpoint createSubscriptions (collaboratorIds : list string)
         (document : string) (st : Store) : Store :=
  match collaboratorIds with
  | [] => st
  | user :: rest =>
      if holds (subscriptions st) user document
      then createSubscriptions rest document st
      else createSubscriptions rest document (subscribe user document st)
  end.

(** The users of a list in order, each at its first occurrence;
    [seen] are the users met before. *)
Fixpoint firstOccurrences (seen : list string) (l : list string) : list string :=
  match l with
  | [] => []
  | x :: rest =>
      if bool_decide (x ∈ seen) then firstOccurrences seen rest
      else x :: firstOccurrences (x :: seen) rest
  end.

End NotificationsProcessor.

(* ===================================================================== *)
(** ** server/emails/templates/DocumentNotificationEmail.tsx              *)
(* ===================================================================== *)

Module DocumentNotificationEmail.
Import Js.

(** [InputProps] *)
Record InputProps : Type := {
  to : string;
  documentId : string;
  actorName : string;
  collectionName : string;
  eventName : string;
  teamUrl : string;
  unsubscribeUrl : string;
  content : string
}.

(** [BeforeSend] *)
Record BeforeSend : Type := {
  document : Models.Document;
  body : option string
}.

Section Template.
(** The documents that [Document.unscoped().findByPk] finds, [inlineCss]
    with the options of the template, [document.url] and the React
    element of [render]. *)
Variable documents : gmap string Models.Document.
Variable inlineCss : string -> Outcome string.
Variable url : Models.Document -> string.
Variable Component : Type.
Variable element : InputProps -> BeforeSend -> Component.
Variable noElement : Component.

(** [beforeSend] *)
Definition beforeSend (props : InputProps)
  : Outcome (BaseEmail.BeforeSend BeforeSend) :=
  match documents !! documentId props with
  | None => Return (BaseEmail.Aborted BeforeSend)
  | Some d =>
      if Str.truthy (content props)
      then match inlineCss (content props) with
           | Return b =>
               Return (BaseEmail.Additional BeforeSend
                         {| document := d; body := Some b |})
           | Throw e => Throw e
           end
      else Return (BaseEmail.Additional BeforeSend
                     {| document := d; body := None |})
  end.

(** [subject] *)
Definition subject (props : InputProps) (bs : BeforeSend) : string :=
  "“" +:+ Models.title (document bs) +:+ "” " +:+ eventName props.

(** [preview] *)
Definition preview (props : InputProps) : string :=
  actorName props +:+ " " +:+ eventName props +:+ " a document".

Definition nl : string := String (ascii_of_nat 10) EmptyString.

(** [renderAsText] *)
Definition renderAsText (props : InputProps) (bs : BeforeSend) : string :=
  nl +:+ Str.dquote +:+ Models.title (document bs) +:+ Str.dquote +:+ " "
  +:+ eventName props +:+ nl +:+ nl
  +:+ actorName props +:+ " " +:+ eventName props +:+ " the document "
  +:+ Str.dquote +:+ Models.title (document bs) +:+ Str.dquote
  +:+ ", in the " +:+ collectionName props +:+ " collection." +:+ nl +:+ nl
  +:+ "Open Document: " +:+ teamUrl props +:+ url (document bs) +:+ nl.

(** The template as [BaseEmail] sees it.  The methods read the data of
    [beforeSend]; since the hook is defined, [send] never calls them
    without. *)
Definition template : BaseEmail.Template InputProps BeforeSend Component :=
  {| BaseEmail.name := "DocumentNotificationEmail";
     BaseEmail.subject :=
       fun data => match snd data with
                   | Some bs => subject (fst data) bs
                   | None => EmptyString
                   end;
     BaseEmail.preview := fun data => preview (fst data);
     BaseEmail.renderAsText :=
       fun data => match snd data with
                   | Some bs => renderAsText (fst data) bs
                   | None => EmptyString
                   end;
     BaseEmail.render :=
       fun data => match snd data with
                   | Some bs => element (fst data) bs
                   | None => noElement
                   end;
     BaseEmail.headCSS := None;
     BaseEmail.beforeSend := Some beforeSend |}.

End Template.

End DocumentNotificationEmail.

(* ===================================================================== *)
(** ** server/models/User.ts                                              *)
(* ===================================================================== *)

Module UserModel.
Import Js.

(** [UserFlag] *)
Inductive UserFlag : Type :=
| InviteSent
| InviteReminderSent
| DesktopWeb
| MobileWeb.

Definition flagKey (flag : UserFlag) : string :=
  match flag with
  | InviteSent => "inviteSent"
  | InviteReminderSent => "inviteReminderSent"
  | DesktopWeb => "desktopWeb"
  | MobileWeb => "mobileWeb"
  end.

(** [UserRole] *)
Inductive UserRole : Type :=
| Member
| Viewer.

(** [CollectionPermission] *)
Inductive CollectionPermission : Type :=
| Read
| ReadWrite.

(** A row of the users table, as far as the methods below read and write
    it.  [flags] and [preferences] are nullable JSON columns; [changed]
    lists the fields marked with [this.changed(field, true)]. *)
Record User : Type := {
  id : string;
  teamId : string;
  isAdmin : bool;
  isViewer : bool;
  flags : option (gmap string Z);
  preferences : option (gmap string bool);
  deletedAt : option nat;
  changed : list string
}.

Definition withFlags (u : User) (fl : gmap string Z) (dirty : bool) : User :=
  {| id := id u; teamId := teamId u; isAdmin := isAdmin u;
     isViewer := isViewer u; flags := Some fl;
     preferences := preferences u; deletedAt := deletedAt u;
     changed := if dirty then changed u ++ ["flags"] else changed u |}.

Definition withPreferences (u : User) (prefs : gmap string bool) : User :=
  {| id := id u; teamId := teamId u; isAdmin := isAdmin u;
     isViewer := isViewer u; flags := flags u;
     preferences := Some prefs; deletedAt := deletedAt u;
     changed := changed u ++ ["preferences"] |}.

Definition withRole (u : User) (admin viewer : bool) : User :=
  {| id := id u; teamId := teamId u; isAdmin := admin;
     isViewer := viewer; flags := flags u;
     preferences := preferences u; deletedAt := deletedAt u;
     changed := changed u |}.

(** [defaultCollectionPermission] *)
Definition defaultCollectionPermission (u : User) : CollectionPermission :=
  if isViewer u then Read else ReadWrite.

(** [setFlag(flag, value = true)], as the user it leaves *)
Definition setFlag (flag : UserFlag) (value : bool) (u : User) : User :=
  let fl := default ∅ (flags u) in
  let binary : Z := if value then 1%Z else 0%Z in
  if bool_decide (fl !! flagKey flag = Some binary)
  then withFlags u fl false
  else withFlags u (<[flagKey flag := binary]> fl) true.

(** [getFlag(flag)] *)
Definition getFlag (flag : UserFlag) (u : User) : Z :=
  match flags u with
  | Some fl => default 0%Z (fl !! flagKey flag)
  | None => 0%Z
  end.

(** [incrementFlag(flag, value = 1)], as the user it leaves *)
Definition incrementFlag (flag : UserFlag) (value : Z) (u : User) : User :=
  let fl := default ∅ (flags u) in
  withFlags u (<[flagKey flag := (default 0 (fl !! flagKey flag) + value)%Z]> fl)
            true.

(** [setPreference(preference, value)], as the user it leaves *)
Definition setPreference (preference : string) (value : bool) (u : User) : User :=
  withPreferences u (<[preference := value]> (default ∅ (preferences u))).

(** [getPreference(preference)]: the value when it is truthy, undefined
    otherwise *)
Definition getPreference (preference : string) (u : User) : option bool :=
  match preferences u with
  | Some prefs =>
      match prefs !! preference with
      | Some true => Some true
      | _ => None
      end
  | None => None
  end.

(** A row of the collection_users table. *)
Record CollectionUser : Type := {
  cu_userId : string;
  cu_collectionId : string;
  cu_permission : CollectionPermission
}.

(** The two tables that [promote] and [demote] touch. *)
Record Tables : Type := {
  users : list User;
  collectionUsers : list CollectionUser
}.

(** [this.update(values)]: the row with the id of the instance. *)
Definition updateRole (this : User) (admin viewer : bool) (rows : list User)
  : list User :=
  map (fun r => if String.eqb (id r) (id this) then withRole r admin viewer else r)
      rows.

(** The rows that [findAndCountAll] counts in [demote]: the other admins
    of the team that are not deleted. *)
Definition isOtherAdmin (this : User) (r : User) : bool :=
  String.eqb (teamId r) (teamId this) && isAdmin r
  && negb (String.eqb (id r) (id this))
  && match deletedAt r with Some _ => false | None => true end.

(** [CollectionUser.update({ permission: Read }, { where: { userId } })] *)
Definition restrictMemberships (this : User) (rows : list CollectionUser)
  : list CollectionUser :=
  map (fun m => if String.eqb (cu_userId m) (id this)
                then {| cu_userId := cu_userId m;
                        cu_collectionId := cu_collectionId m;
                        cu_permission := Read |}
                else m)
      rows.

Definition ValidationError (message : string) : Exn := Error message.

(** [demote(to)] *)
Definition demote (this : User) (to : UserRole) (db : Tables)
  : Tables * Outcome unit :=
  let count := length (List.filter (isOtherAdmin this) (users db)) in
  if Nat.leb 1 count
  then
    match to with
    | Member =>
        ({| users := updateRole this false false (users db);
            collectionUsers := collectionUsers db |}, Return tt)
    | Viewer =>
        ({| users := updateRole this false true (users db);
            collectionUsers := restrictMemberships this (collectionUsers db) |},
         Return tt)
    end
  else (db, Throw (ValidationError "At least one admin is required")).

(** [promote()] *)
Definition promote (this : User) (db : Tables) : Tables :=
  {| users := updateRole this true false (users db);
     collectionUsers := collectionUsers db |}.

(** The team has an admin that is not deleted. *)
Definition hasAdmin (team : string) (rows : list User) : bool :=
  existsb (fun r => String.eqb (teamId r) team && isAdmin r
                    && match deletedAt r with Some _ => false | None => true end)
          rows.

(** No row is admin and viewer at once. *)
Definition rolesExclusive (rows : list User) : bool :=
  forallb (fun r => negb (isAdmin r && isViewer r)) rows.

End UserModel.

(* ===================================================================== *)
(** ** server/policies/team.ts                                            *)
(* ===================================================================== *)

Module TeamPolicy.
Import Js.

(** A Team, as far as the policy reads it. *)
Record Team : Type := {
  team_id : string;
  sharing : bool
}.

(** [allow(User, "read", Team, ...)] *)
Definition read (user : UserModel.User) (team : option Team) : bool :=
  match team with
  | Some t => String.eqb (UserModel.teamId user) (team_id t)
  | None => false
  end.

(** [allow(User, "share", Team, ...)] *)
Definition share (user : UserModel.User) (team : option Team) : bool :=
  match team with
  | None => false
  | Some t =>
      if UserModel.isViewer user
         || negb (String.eqb (UserModel.teamId user) (team_id t))
      then false
      else sharing t
  end.

(** [allow(User, ["update", "manage"], Team, ...)] *)
Definition update (user : UserModel.User) (team : option Team) : bool :=
  match team with
  | None => false
  | Some t =>
      if UserModel.isViewer user
         || negb (String.eqb (UserModel.teamId user) (team_id t))
      then false
      else UserModel.isAdmin user
  end.

(** [allow(User, "createTeam", Team, ...)]: the condition throws unless
    the deployment is hosted, and returns nothing. *)
Definition createTeam (deployment : option string) : Outcome unit :=
  match deployment with
  | Some d =>
      if String.eqb d "hosted" then Return tt
      else Throw (Error "createTeam only available on cloud")
  | None => Throw (Error "createTeam only available on cloud")
  end.

End TeamPolicy.

(* ===================================================================== *)
(** ** A small engine and documents to run the helpers on                 *)
(* ===================================================================== *)

Module Fixtures.
Import Models.

Definition nl : string := String (ascii_of_nat 10) EmptyString.

Definition dropFirst (n : nat) (s : string) : string :=
  String.substring n (String.length s - n) s.

(** One block per line: [# ] starts a heading, [- ] a list item,
    anything else is a paragraph; empty lines separate blocks. *)
Definition blockOf (line : string) : list Dom.Node :=
  if String.eqb line EmptyString then []
  else if String.prefix "# " line
  then [Dom.Element "h1" [] [Dom.Text (dropFirst 2 line)]]
  else if String.prefix "- " line
  then [Dom.Element "ul" []
          [Dom.Element "li" [] [Dom.Text (dropFirst 2 line)]]]
  else [Dom.Element "p" [] [Dom.Text line]].

Definition blocksOf (markdown : string) : list Dom.Node :=
  concat (map blockOf (Str.split (ascii_of_nat 10) markdown)).

Fixpoint attrs_eqb (a b : list (string * string)) : bool :=
  match a, b with
  | [], [] => true
  | (k1, v1) :: a', (k2, v2) :: b' =>
      String.eqb k1 k2 && String.eqb v1 v2 && attrs_eqb a' b'
  | _, _ => false
  end.

Fixpoint node_eqb (a b : Dom.Node) : bool :=
  match a, b with
  | Dom.Text s, Dom.Text t => String.eqb s t
  | Dom.Element n1 a1 c1, Dom.Element n2 a2 c2 =>
      String.eqb n1 n2 && attrs_eqb a1 a2 &&
      (fix go (l1 l2 : list Dom.Node) : bool :=
         match l1, l2 with
         | [], [] => true
         | x :: l1', y :: l2' => node_eqb x y && go l1' l2'
         | _, _ => false
         end) c1 c2
  | _, _ => false
  end.

Definition ins (n : Dom.Node) : Dom.Node :=
  Dom.Element "ins" [("data-operation-index", "0")] [n].

Definition del (n : Dom.Node) : Dom.Node :=
  Dom.Element "del" [("data-operation-index", "0")] [n].

(** A positional diff: equal nodes are kept, elements with the same tag
    and attributes are compared child by child, anything else is marked
    deleted and inserted. *)
Fixpoint diffNode (a b : Dom.Node) : list Dom.Node :=
  if node_eqb a b then [b]
  else
    match a, b with
    | Dom.Element n1 a1 c1, Dom.Element n2 a2 c2 =>
        if String.eqb n1 n2 && attrs_eqb a1 a2
        then [Dom.Element n2 a2
                ((fix go (l1 l2 : list Dom.Node) : list Dom.Node :=
                    match l1 with
                    | [] => map ins l2
                    | x :: l1' =>
                        match l2 with
                        | [] => map del l1
                        | y :: l2' => diffNode x y ++ go l1' l2'
                        end
                    end) c1 c2)]
        else [del a; ins b]
    | _, _ => [del a; ins b]
    end.

Fixpoint diffNodes (l1 l2 : list Dom.Node) : list Dom.Node :=
  match l1 with
  | [] => map ins l2
  | x :: l1' =>
      match l2 with
      | [] => map del l1
      | y :: l2' => diffNode x y ++ diffNodes l1' l2'
      end
  end.

(** A title is right-to-left when it starts with a Hebrew or an Arabic
    letter (lead bytes D7 to DB of UTF-8). *)
Definition startsRTL (title : string) : bool :=
  match title with
  | EmptyString => false
  | String c _ => Nat.leb 215 (nat_of_ascii c) && Nat.leb (nat_of_ascii c) 219
  end.

Definition styles (rtl centered withoutStyles : bool) : Styles :=
  {| styleTags :=
       Some [Dom.Element "style" []
               [Dom.Text (if rtl then ".ProseMirror{direction:rtl}"
                          else ".ProseMirror{direction:ltr}")]];
     centeredClass := "sc-centered";
     editorContainerClass := "sc-editor" |}.

(** Content trees and replicated documents are represented by Markdown
    source; the binary state is its bytes. *)
Definition engine : Engine := {|
  PMNode := string;
  PMJSON := string;
  YDoc := string;
  XmlFragment := string;
  parser_parse := fun text => text;
  Y_Doc := EmptyString;
  Y_applyUpdate := fun ydoc update => ydoc +:+ string_of_list_byte update;
  Y_encodeStateAsUpdate := fun ydoc => list_byte_of_string ydoc;
  yDocToProsemirrorJSON := fun ydoc _ => ydoc;
  Node_fromJSON := fun json => json;
  Y_get := fun ydoc _ => ydoc;
  fragment_doc := fun type => Some type;
  updateYFragment := fun _ _ node => node;
  Y_isEmpty := fun ydoc _ => negb (Str.truthy ydoc);
  markdownToYDoc := fun text _ => text;
  serializeFragment := blocksOf;
  isRTL := startsRTL;
  renderStyles := fun rtl centered withoutStyles =>
                    Some (styles rtl centered withoutStyles);
  htmldiff := diffNodes
|}.

(** An engine whose fragments have lost their document. *)
Definition orphanEngine : Engine := {|
  PMNode := string;
  PMJSON := string;
  YDoc := string;
  XmlFragment := string;
  parser_parse := fun text => text;
  Y_Doc := EmptyString;
  Y_applyUpdate := fun ydoc update => ydoc +:+ string_of_list_byte update;
  Y_encodeStateAsUpdate := fun ydoc => list_byte_of_string ydoc;
  yDocToProsemirrorJSON := fun ydoc _ => ydoc;
  Node_fromJSON := fun json => json;
  Y_get := fun ydoc _ => ydoc;
  fragment_doc := fun _ => None;
  updateYFragment := fun _ _ node => node;
  Y_isEmpty := fun ydoc _ => negb (Str.truthy ydoc);
  markdownToYDoc := fun text _ => text;
  serializeFragment := blocksOf;
  isRTL := startsRTL;
  renderStyles := fun rtl centered withoutStyles =>
                    Some (styles rtl centered withoutStyles);
  htmldiff := diffNodes
|}.

(** An engine whose documents keep their history: updating a fragment
    adds the new content to what the document held. *)
Definition historyEngine : Engine := {|
  PMNode := string;
  PMJSON := string;
  YDoc := string;
  XmlFragment := string;
  parser_parse := fun text => text;
  Y_Doc := EmptyString;
  Y_applyUpdate := fun ydoc update => ydoc +:+ string_of_list_byte update;
  Y_encodeStateAsUpdate := fun ydoc => list_byte_of_string ydoc;
  yDocToProsemirrorJSON := fun ydoc _ => ydoc;
  Node_fromJSON := fun json => json;
  Y_get := fun ydoc _ => ydoc;
  fragment_doc := fun type => Some type;
  updateYFragment := fun owner _ node => owner +:+ nl +:+ node;
  Y_isEmpty := fun ydoc _ => negb (Str.truthy ydoc);
  markdownToYDoc := fun text _ => text;
  serializeFragment := blocksOf;
  isRTL := startsRTL;
  renderStyles := fun rtl centered withoutStyles =>
                    Some (styles rtl centered withoutStyles);
  htmldiff := diffNodes
|}.

(** Library calls that never throw. *)
Definition noFailures (E : Engine) : @Failures E := {|
  Y_applyUpdate_throws := fun _ _ => None;
  Y_get_throws := fun _ _ => None;
  parser_parse_throws := fun _ => None;
  updateYFragment_throws := fun _ _ _ => None;
  Y_encodeStateAsUpdate_throws := fun _ => None
|}.

(** A decoder that throws on the empty update, as the decoder of Yjs
    does when it reads past the end of the bytes. *)
Definition strictDecoder (E : Engine) : @Failures E := {|
  Y_applyUpdate_throws := fun _ update =>
    match update with
    | [] => Some (Js.Error "Unexpected end of array")
    | _ => None
    end;
  Y_get_throws := fun _ _ => None;
  parser_parse_throws := fun _ => None;
  updateYFragment_throws := fun _ _ _ => None;
  Y_encodeStateAsUpdate_throws := fun _ => None
|}.

Definition revision (title text : string) : Revision :=
  {| rev_id := "r1"; rev_title := title; rev_text := text;
     rev_version := Some 2 |}.

Definition document (title text : string) (st : option string) : Document :=
  {| id := "d1"; title := title; text := text;
     state := option_map list_byte_of_string st;
     version := Some 2; changed := [] |}.

(** A changed paragraph, a heading and a paragraph that stay. *)
Definition beforeHeading : Revision :=
  revision "Title"
    ("First version" +:+ nl +:+ nl +:+ "# Heading" +:+ nl +:+ nl +:+ "Closing words").
Definition afterHeading : Revision :=
  revision "Title"
    ("Second version" +:+ nl +:+ nl +:+ "# Heading" +:+ nl +:+ nl +:+ "Closing words").

(** A paragraph that stays, above a list item that changes. *)
Definition beforeList : Revision :=
  revision "Title" ("Introduction" +:+ nl +:+ nl +:+ "- one item").
Definition afterList : Revision :=
  revision "Title" ("Introduction" +:+ nl +:+ nl +:+ "- another item").

(** The title changes from a left-to-right to a right-to-left one. *)
Definition beforeTitle : Revision := revision "Title" "Body".
Definition afterTitle : Revision := revision "שלום" "Body".

(** The blocks of [#content] that [diff] yields for these revisions. *)
Definition pChanged : Dom.Node :=
  Dom.Element "p" [] [del (Dom.Text "First version");
                      ins (Dom.Text "Second version")].
Definition hHeading : Dom.Node := Dom.Element "h1" [] [Dom.Text "Heading"].
Definition pClosing : Dom.Node := Dom.Element "p" [] [Dom.Text "Closing words"].
Definition pIntroduction : Dom.Node :=
  Dom.Element "p" [] [Dom.Text "Introduction"].
(** An empty paragraph, as a blank line of the document renders. *)
Definition pEmpty : Dom.Node := Dom.Element "p" [] [].
Definition ulChanged : Dom.Node :=
  Dom.Element "ul" []
    [Dom.Element "li" [] [del (Dom.Text "one item");
                          ins (Dom.Text "another item")]].

(** The rendering of a left-to-right document called Title around the
    given blocks. *)
Definition rendering (blocks : list Dom.Node) : Dom.Document :=
  {| Dom.head :=
       [Dom.Element "style" [] [Dom.Text ".ProseMirror{direction:ltr}"]];
     Dom.body :=
       [Dom.Element "article" []
          [Dom.Element "h1" [("dir", "ltr")] [Dom.Text "Title"];
           Dom.Element "div" [("dir", "ltr"); ("class", "sc-editor")]
             [Dom.Element "div" [("id", "content"); ("class", "ProseMirror")]
                blocks]]] |}.

(** A database with one document that has no state yet. *)
Definition world : PersistenceExtension.World :=
  {| PersistenceExtension.db := {[ "d1" := document "Title" "Body" None ]};
     PersistenceExtension.events := [];
     PersistenceExtension.logs := [] |}.

(** A document persistence that always fails, naming the author it was
    given in its error. *)
Definition failingUpdater (documentId : option string) (ydoc : string)
           (userId : option string) (w : PersistenceExtension.World)
  : PersistenceExtension.World * Js.Outcome unit :=
  (w, Js.Throw (Js.Rejected ("no revision for " +:+ default "undefined" userId))).

(** A template without hooks, a transport that rejects every mail and a
    notification table that rejects every update. *)
Definition template : BaseEmail.Template string unit string :=
  {| BaseEmail.name := "DocumentNotificationEmail";
     BaseEmail.subject := fun _ => "Title updated";
     BaseEmail.preview := fun _ => "Preview";
     BaseEmail.renderAsText := fun _ => "Text";
     BaseEmail.render := fun _ => "<p>Text</p>";
     BaseEmail.headCSS := None;
     BaseEmail.beforeSend := None |}.

Definition mailbox : BaseEmail.World string :=
  {| BaseEmail.outbox := []; BaseEmail.metrics := []; BaseEmail.logs := [];
     BaseEmail.emailedAt := {[ "n1" := None ]} |}.

Definition metadata : option BaseEmail.NotificationMetadata :=
  Some {| BaseEmail.notificationId := Some "n1" |}.

Definition rejectAll {A : Type} (x : A) : option Js.Exn :=
  Some (Js.Rejected "unavailable").

Definition acceptAll {A : Type} (x : A) : option Js.Exn := None.

(** Three collaborators; the third one subscribed and unsubscribed. *)
Definition unsubscribed : NotificationsProcessor.Store :=
  {| NotificationsProcessor.subscriptions :=
       [{| NotificationsProcessor.userId := "collaborator2";
           NotificationsProcessor.documentId := "d1";
           NotificationsProcessor.event := "documents.update";
           NotificationsProcessor.enabled := true;
           NotificationsProcessor.deletedAt := Some 7 |}];
     NotificationsProcessor.events := [] |}.

(** An engine whose styles never render. *)
Definition brokenEngine : Engine := {|
  PMNode := string;
  PMJSON := string;
  YDoc := string;
  XmlFragment := string;
  parser_parse := fun text => text;
  Y_Doc := EmptyString;
  Y_applyUpdate := fun ydoc update => ydoc +:+ string_of_list_byte update;
  Y_encodeStateAsUpdate := fun ydoc => list_byte_of_string ydoc;
  yDocToProsemirrorJSON := fun ydoc _ => ydoc;
  Node_fromJSON := fun json => json;
  Y_get := fun ydoc _ => ydoc;
  fragment_doc := fun type => Some type;
  updateYFragment := fun _ _ node => node;
  Y_isEmpty := fun ydoc _ => negb (Str.truthy ydoc);
  markdownToYDoc := fun text _ => text;
  serializeFragment := blocksOf;
  isRTL := startsRTL;
  renderStyles := fun _ _ _ => None;
  htmldiff := diffNodes
|}.

(** The props of a notification about the document [d1]. *)
Definition notificationProps : DocumentNotificationEmail.InputProps :=
  {| DocumentNotificationEmail.to := "user@example.com";
     DocumentNotificationEmail.documentId := "d1";
     DocumentNotificationEmail.actorName := "Ada";
     DocumentNotificationEmail.collectionName := "Notes";
     DocumentNotificationEmail.eventName := "updated";
     DocumentNotificationEmail.teamUrl := "https://team.example.com";
     DocumentNotificationEmail.unsubscribeUrl := "https://team.example.com/unsubscribe";
     DocumentNotificationEmail.content := "<p>changed</p>" |}.

(** A team with two admins and a member who belongs to two collections. *)
Definition account (name : string) (admin viewer : bool) : UserModel.User :=
  {| UserModel.id := name; UserModel.teamId := "team1";
     UserModel.isAdmin := admin; UserModel.isViewer := viewer;
     UserModel.flags := None; UserModel.preferences := None;
     UserModel.deletedAt := None; UserModel.changed := [] |}.

Definition tables : UserModel.Tables :=
  {| UserModel.users :=
       [account "alice" true false; account "bob" true false;
        account "carol" false false];
     UserModel.collectionUsers :=
       [{| UserModel.cu_userId := "bob"; UserModel.cu_collectionId := "c1";
           UserModel.cu_permission := UserModel.ReadWrite |};
        {| UserModel.cu_userId := "carol"; UserModel.cu_collectionId := "c1";
           UserModel.cu_permission := UserModel.ReadWrite |}] |}.

(** A team whose only admin is alice. *)
Definition soleAdmin : UserModel.Tables :=
  {| UserModel.users := [account "alice" true false; account "carol" false false];
     UserModel.collectionUsers :=
       [{| UserModel.cu_userId := "carol"; UserModel.cu_collectionId := "c1";
           UserModel.cu_permission := UserModel.ReadWrite |}] |}.

End Fixtures.

(* ===================================================================== *)
(** * Properties                                                          *)
(* ===================================================================== *)

(* ===================================================================== *)
(** ** The DOM                                                            *)
(* ===================================================================== *)

Section DomFacts.
Import Dom.

(** Induction on nodes that reaches the children of an element. *)
Lemma Node_forall_ind (P : Node -> Prop) :
  (forall s, P (Text s)) ->
  (forall name attrs cs, Forall P cs -> P (Element name attrs cs)) ->
  forall n, P n.
Proof.
  intros HText HElement.
  fix IH 1.
  intros [s | name attrs cs].
  - apply HText.
  - apply HElement.
    induction cs as [| c cs IHcs]; constructor.
    + apply IH.
    + exact IHcs.
Qed.

Lemma findNode_Element p name attrs cs :
  findNode p (Element name attrs cs) =
  if p (Element name attrs cs) then Some (Element name attrs cs)
  else findFirst p cs.
Proof.
  simpl. destruct (p (Element name attrs cs)); [reflexivity |].
  induction cs as [| c cs IH]; simpl; [reflexivity |].
  destruct (findNode p c); [reflexivity | exact IH].
Qed.

Lemma updateNode_Element p f name attrs cs :
  updateNode p f (Element name attrs cs) =
  if p (Element name attrs cs) then Some (Element name attrs (f cs))
  else option_map (Element name attrs) (updateFirst p f cs).
Proof.
  simpl. destruct (p (Element name attrs cs)); [reflexivity |].
  match goal with
  | |- match ?a with _ => _ end = option_map _ ?b =>
      assert (Heq : a = b); [| rewrite Heq; destruct b; reflexivity]
  end.
  induction cs as [| c cs IH]; simpl; [reflexivity |].
  destruct (updateNode p f c); [reflexivity |].
  rewrite IH. reflexivity.
Qed.

(** What a query finds satisfies the selector. *)
Lemma findNode_sat p n r : findNode p n = Some r -> p r = true.
Proof.
  revert r.
  induction n as [s | name attrs cs IH] using Node_forall_ind; intros r Hfind.
  - simpl in Hfind. destruct (p (Text s)) eqn:Ep; [| discriminate].
    injection Hfind as <-. exact Ep.
  - rewrite findNode_Element in Hfind.
    destruct (p (Element name attrs cs)) eqn:Ep.
    + injection Hfind as <-. exact Ep.
    + clear Ep.
      induction IH as [| c cs Hc _ IHcs]; simpl in Hfind; [discriminate |].
      destruct (findNode p c) eqn:Ec.
      * injection Hfind as <-. apply Hc. reflexivity.
      * apply IHcs. exact Hfind.
Qed.

Lemma findFirst_sat p l r : findFirst p l = Some r -> p r = true.
Proof.
  induction l as [| c l IH]; simpl; intros Hfind; [discriminate |].
  destruct (findNode p c) eqn:Ec.
  - injection Hfind as <-. exact (findNode_sat _ _ _ Ec).
  - apply IH. exact Hfind.
Qed.

Lemma query_sat p d r : query p d = Some r -> p r = true.
Proof.
  unfold query. destruct (findFirst p (head d)) eqn:Eh; intros Hq.
  - injection Hq as <-. exact (findFirst_sat _ _ _ Eh).
  - exact (findFirst_sat _ _ _ Hq).
Qed.

Lemma shallow_hasTag tag : shallow (hasTag tag).
Proof. split; reflexivity. Qed.

Lemma shallow_hasId id : shallow (hasId id).
Proof. split; reflexivity. Qed.

Section Update.
Variable p : Node -> bool.
Hypothesis p_shallow : shallow p.

(** Nothing to find, nothing to update. *)
Lemma updateNode_None f n : findNode p n = None -> updateNode p f n = None.
Proof.
  induction n as [s | name attrs cs IH] using Node_forall_ind; intros Hfind.
  - reflexivity.
  - rewrite findNode_Element in Hfind. rewrite updateNode_Element.
    destruct (p (Element name attrs cs)); [discriminate |].
    assert (Hcs : updateFirst p f cs = None).
    { induction IH as [| c cs Hc _ IHcs]; simpl in *; [reflexivity |].
      destruct (findNode p c) eqn:Ec; [discriminate |].
      rewrite (Hc eq_refl), (IHcs Hfind). reflexivity. }
    rewrite Hcs. reflexivity.
Qed.

Lemma updateFirst_None f l : findFirst p l = None -> updateFirst p f l = None.
Proof.
  induction l as [| c l IH]; simpl; intros Hfind; [reflexivity |].
  destruct (findNode p c) eqn:Ec; [discriminate |].
  rewrite (updateNode_None f c Ec), (IH Hfind). reflexivity.
Qed.

(** The first match is the node that is updated, and it is still the
    first match afterwards. *)
Lemma updateNode_found f n r :
  findNode p n = Some r ->
  exists n', updateNode p f n = Some n' /\
             findNode p n' = Some (withChildren r (f (children r))).
Proof.
  revert r.
  induction n as [s | name attrs cs IH] using Node_forall_ind; intros r Hfind.
  - simpl in Hfind. rewrite (proj1 p_shallow) in Hfind. discriminate.
  - rewrite findNode_Element in Hfind. rewrite updateNode_Element.
    destruct (p (Element name attrs cs)) eqn:Ep.
    + injection Hfind as <-. eexists; split; [reflexivity |].
      rewrite findNode_Element.
      rewrite (proj2 p_shallow name attrs (f cs) cs), Ep. reflexivity.
    + assert (Hcs : exists cs', updateFirst p f cs = Some cs' /\
                      findFirst p cs' = Some (withChildren r (f (children r)))).
      { clear Ep. induction IH as [| c cs Hc _ IHcs]; simpl in *; [discriminate |].
        destruct (findNode p c) eqn:Ec.
        - injection Hfind as <-.
          destruct (Hc _ eq_refl) as (c' & Hup & Hfound).
          rewrite Hup. eexists; split; [reflexivity |].
          simpl. rewrite Hfound. reflexivity.
        - rewrite (updateNode_None f c Ec).
          destruct (IHcs Hfind) as (cs' & Hup & Hfound).
          rewrite Hup. eexists; split; [reflexivity |].
          simpl. rewrite Ec. exact Hfound. }
      destruct Hcs as (cs' & Hup & Hfound).
      rewrite Hup. eexists; split; [reflexivity |].
      rewrite findNode_Element.
      rewrite (proj2 p_shallow name attrs cs' cs), Ep. exact Hfound.
Qed.

Lemma updateFirst_found f l r :
  findFirst p l = Some r ->
  exists l', updateFirst p f l = Some l' /\
             findFirst p l' = Some (withChildren r (f (children r))).
Proof.
  induction l as [| c l IH]; simpl; intros Hfind; [discriminate |].
  destruct (findNode p c) eqn:Ec.
  - injection Hfind as <-.
    destruct (updateNode_found f c _ Ec) as (c' & Hup & Hfound).
    rewrite Hup. eexists; split; [reflexivity |].
    simpl. rewrite Hfound. reflexivity.
  - rewrite (updateNode_None f c Ec).
    destruct (IH Hfind) as (l' & Hup & Hfound).
    rewrite Hup. eexists; split; [reflexivity |].
    simpl. rewrite Ec. exact Hfound.
Qed.

Lemma updateNode_Some_any f g n n' :
  updateNode p f n = Some n' -> exists n'', updateNode p g n = Some n''.
Proof.
  intros Hup. destruct (findNode p n) as [r |] eqn:Ef.
  - destruct (updateNode_found g n r Ef) as (n'' & Hg & _). eauto.
  - rewrite (updateNode_None f n Ef) in Hup. discriminate.
Qed.

(** Updating twice is updating once with the composed function. *)
Lemma updateNode_twice f g n n' :
  updateNode p f n = Some n' ->
  updateNode p g n' = updateNode p (fun cs => g (f cs)) n.
Proof.
  revert n'.
  induction n as [s | name attrs cs IH] using Node_forall_ind; intros n' Hup.
  - discriminate.
  - rewrite updateNode_Element in Hup. rewrite updateNode_Element.
    destruct (p (Element name attrs cs)) eqn:Ep.
    + injection Hup as <-. rewrite updateNode_Element.
      rewrite (proj2 p_shallow name attrs (f cs) cs), Ep. reflexivity.
    + destruct (updateFirst p f cs) as [cs' |] eqn:Ecs; [| discriminate].
      injection Hup as <-. rewrite updateNode_Element.
      rewrite (proj2 p_shallow name attrs cs' cs), Ep. f_equal.
      clear Ep. revert cs' Ecs.
      induction IH as [| c cs Hc _ IHcs]; simpl; intros cs' Ecs; [discriminate |].
      destruct (updateNode p f c) as [c' |] eqn:Ec.
      * injection Ecs as <-. simpl. rewrite (Hc _ eq_refl).
        destruct (updateNode_Some_any f (fun cs => g (f cs)) c c' Ec)
          as (c'' & Hc'').
        rewrite Hc''. reflexivity.
      * destruct (updateFirst p f cs) as [cs'' |] eqn:Ecs''; [| discriminate].
        injection Ecs as <-. simpl.
        assert (Hnone : findNode p c = None).
        { destruct (findNode p c) eqn:Ef; [| reflexivity].
          destruct (updateNode_found f c _ Ef) as (? & Hsome & _).
          congruence. }
        rewrite !(updateNode_None _ c Hnone).
        rewrite (IHcs _ eq_refl). reflexivity.
Qed.

Lemma updateFirst_twice f g l l' :
  updateFirst p f l = Some l' ->
  updateFirst p g l' = updateFirst p (fun cs => g (f cs)) l.
Proof.
  revert l'. induction l as [| c l IH]; simpl; intros l' Hup; [discriminate |].
  destruct (updateNode p f c) as [c' |] eqn:Ec.
  - injection Hup as <-. simpl. rewrite (updateNode_twice f g c c' Ec).
    destruct (updateNode_Some_any f (fun cs => g (f cs)) c c' Ec)
      as (c'' & Hc'').
    rewrite Hc''. reflexivity.
  - destruct (updateFirst p f l) as [l'' |] eqn:El; [| discriminate].
    injection Hup as <-. simpl.
    assert (Hnone : findNode p c = None).
    { destruct (findNode p c) eqn:Ef; [| reflexivity].
      destruct (updateNode_found f c _ Ef) as (? & Hsome & _).
      congruence. }
    rewrite !(updateNode_None _ c Hnone).
    rewrite (IH _ eq_refl). reflexivity.
Qed.

Lemma updateFirst_Some_found f l l' :
  updateFirst p f l = Some l' -> exists r, findFirst p l = Some r.
Proof.
  intros Hup. destruct (findFirst p l) eqn:Ef; [eauto |].
  rewrite (updateFirst_None f l Ef) in Hup. discriminate.
Qed.

(** The first match of a document after an update. *)
Lemma query_update f d r :
  query p d = Some r ->
  query p (update p f d) = Some (withChildren r (f (children r))).
Proof.
  unfold query, update. intros Hq.
  destruct (findFirst p (head d)) as [rh |] eqn:Eh.
  - injection Hq as <-.
    destruct (updateFirst_found f _ _ Eh) as (h' & Hup & Hfound).
    rewrite Hup. simpl. rewrite Hfound. reflexivity.
  - rewrite (updateFirst_None f _ Eh).
    destruct (updateFirst_found f _ _ Hq) as (b' & Hup & Hfound).
    rewrite Hup. simpl. rewrite Eh, Hfound. reflexivity.
Qed.

Lemma update_twice f g d :
  update p g (update p f d) = update p (fun cs => g (f cs)) d.
Proof.
  unfold update.
  destruct (updateFirst p f (head d)) as [h' |] eqn:Eh.
  - simpl. rewrite (updateFirst_twice f g _ _ Eh).
    destruct (updateFirst_Some_found _ _ _ Eh) as (r & Hr).
    destruct (updateFirst_found (fun cs => g (f cs)) _ _ Hr) as (h'' & Hup & _).
    rewrite Hup. reflexivity.
  - assert (Hnone : findFirst p (head d) = None).
    { destruct (findFirst p (head d)) eqn:Ef; [| reflexivity].
      destruct (updateFirst_found f _ _ Ef) as (? & Hsome & _). congruence. }
    rewrite (updateFirst_None _ _ Hnone).
    destruct (updateFirst p f (body d)) as [b' |] eqn:Eb.
    + simpl. rewrite (updateFirst_None _ _ Hnone).
      rewrite (updateFirst_twice f g _ _ Eb).
      destruct (updateFirst_Some_found _ _ _ Eb) as (r & Hr).
      destruct (updateFirst_found (fun cs => g (f cs)) _ _ Hr) as (b'' & Hup & _).
      rewrite Hup. reflexivity.
    + assert (Hnoneb : findFirst p (body d) = None).
      { destruct (findFirst p (body d)) eqn:Ef; [| reflexivity].
        destruct (updateFirst_found f _ _ Ef) as (? & Hsome & _). congruence. }
      simpl.
      rewrite (updateFirst_None g _ Hnone), (updateFirst_None g _ Hnoneb).
      rewrite (updateFirst_None (fun cs => g (f cs)) _ Hnoneb).
      reflexivity.
Qed.

End Update.

End DomFacts.

(* ===================================================================== *)
(** ** DocumentHelper: conversions and diff                               *)
(* ===================================================================== *)

Section DocumentHelperFacts.
Import Models Js DocumentHelper.
Context `{E : Engine}.
Context {F : @Failures E}.

(** C1. A document without replicated state is converted by parsing its
    Markdown text; a document with replicated state is converted by
    decoding that state, and its text plays no part: any other
    document with the same state gives the same content tree. *)
Theorem toProsemirror_state_or_markup (document other : DocumentOrRevision) :
  (stateOf document = None ->
   toProsemirror document = parser_parse (textOf document)) /\
  (forall st, stateOf document = Some st ->
     toProsemirror document =
       Node_fromJSON (yDocToProsemirrorJSON (Y_applyUpdate Y_Doc st) "default") /\
     (stateOf other = Some st -> toProsemirror other = toProsemirror document)).
Proof.
  unfold toProsemirror. split.
  - intros ->. reflexivity.
  - intros st ->. split; [reflexivity |].
    intros ->. reflexivity.
Qed.

(** C10. Without a [before] there is nothing to compare with:
    [toEmailDiff] returns the empty string. *)
Theorem toEmailDiff_without_before (after : Revision)
        (options : option HTMLOptions) :
  toEmailDiff None after options = Return EmptyString.
Proof. reflexivity. Qed.

(** With a [before], [toEmailDiff] is the compaction of the children of
    [#content] in the document that [diff] builds. *)
Lemma toEmailDiff_compacts (before : DocumentOrRevision) (after : Revision)
      (options : option HTMLOptions) (doc : Dom.Document) :
  diffDocument (Some before) after options = Return doc ->
  toEmailDiff (Some before) after options =
    Return (headAndBody (Dom.update (Dom.hasId "content") compact doc)).
Proof. unfold toEmailDiff. intros ->. reflexivity. Qed.

(** What [applyMarkdownToDocument] does to the text, to the fields it
    never writes, and to a document without replicated state. *)
Lemma applyMarkdownToDocument_text (d : Document) (t : string) (a : bool) :
  Models.text (fst (applyMarkdownToDocument d t a)) =
    if a then Models.text d +:+ t else t.
Proof.
  unfold applyMarkdownToDocument. cbn [Models.state Models.text].
  destruct (Models.state d); [| reflexivity].
  match goal with
  | |- context [match ?m with Return _ => _ | Throw _ => _ end] => destruct m
  end; reflexivity.
Qed.

Lemma applyMarkdownToDocument_frame (d : Document) (t : string) (a : bool) :
  Models.id (fst (applyMarkdownToDocument d t a)) = Models.id d /\
  Models.title (fst (applyMarkdownToDocument d t a)) = Models.title d /\
  Models.version (fst (applyMarkdownToDocument d t a)) = Models.version d.
Proof.
  unfold applyMarkdownToDocument. cbn [Models.state Models.text].
  destruct (Models.state d); [| repeat split].
  match goal with
  | |- context [match ?m with Return _ => _ | Throw _ => _ end] => destruct m
  end; repeat split.
Qed.

Lemma applyMarkdownToDocument_stateless (d : Document) (t : string) (a : bool) :
  Models.state d = None ->
  applyMarkdownToDocument d t a =
    ({| Models.id := Models.id d; Models.title := Models.title d;
        Models.text := if a then Models.text d +:+ t else t;
        Models.state := None;
        Models.version := Models.version d;
        Models.changed := Models.changed d |}, Return tt).
Proof.
  intros Hd. unfold applyMarkdownToDocument.
  cbn [Models.state]. rewrite Hd. reflexivity.
Qed.

(** C5, as the code has it.  [applyMarkdownToDocument] replaces the text
    or appends to it.  Without replicated state nothing else happens and
    the call returns.  With replicated state the calls run in the order
    of the source, and the exception of the first one that throws is the
    exception of [applyMarkdownToDocument]: decoding the state, taking
    the fragment, parsing the new text; then [type.doc not found] when
    the fragment has no owning document; then applying the parsed text
    to the fragment and encoding.  When none throws, the new state
    encodes the document decoded from the old state after the parsed
    text was applied to its fragment, and the field is marked as
    changed.  Whenever the call throws, the state and the marks are left
    as they were.  With library calls that never throw, the call throws
    exactly when there is a state whose fragment has no owning
    document. *)
Theorem applyMarkdownToDocument_merges (document : Document) (text : string)
        (append : bool) :
  let newText := if append then Models.text document +:+ text else text in
  let result := applyMarkdownToDocument document text append in
  Models.text (fst result) = newText /\
  (Models.state document = None ->
   snd result = Return tt /\ Models.state (fst result) = None) /\
  (throws (snd result) = true ->
   Models.state (fst result) = Models.state document /\
   Models.changed (fst result) = Models.changed document) /\
  (forall st,
      Models.state document = Some st ->
      let ydoc := Y_applyUpdate Y_Doc st in
      let type := Y_get ydoc "default" in
      let doc := parser_parse newText in
      (forall e, Y_applyUpdate_throws Y_Doc st = Some e ->
                 snd result = Throw e) /\
      (Y_applyUpdate_throws Y_Doc st = None ->
       (forall e, Y_get_throws ydoc "default" = Some e ->
                  snd result = Throw e) /\
       (Y_get_throws ydoc "default" = None ->
        (forall e, parser_parse_throws newText = Some e ->
                   snd result = Throw e) /\
        (parser_parse_throws newText = None ->
         (fragment_doc type = None ->
          snd result = Throw (Error "type.doc not found")) /\
         (forall owner,
             fragment_doc type = Some owner ->
             let updated := updateYFragment owner type doc in
             (forall e, updateYFragment_throws owner type doc = Some e ->
                        snd result = Throw e) /\
             (updateYFragment_throws owner type doc = None ->
              (forall e, Y_encodeStateAsUpdate_throws updated = Some e ->
                         snd result = Throw e) /\
              (Y_encodeStateAsUpdate_throws updated = None ->
               snd result = Return tt /\
               Models.state (fst result) =
                 Some (Y_encodeStateAsUpdate updated) /\
               Models.changed (fst result) =
                 Models.changed document ++ ["state"]))))))) /\
  ((forall ydoc update, Y_applyUpdate_throws ydoc update = None) ->
   (forall ydoc field, Y_get_throws ydoc field = None) ->
   (forall markdown, parser_parse_throws markdown = None) ->
   (forall owner type node, updateYFragment_throws owner type node = None) ->
   (forall ydoc, Y_encodeStateAsUpdate_throws ydoc = None) ->
   (throws (snd result) = true <->
    exists st, Models.state document = Some st /\
               fragment_doc (Y_get (Y_applyUpdate Y_Doc st) "default") = None)).
Proof.
  cbv zeta. split; [apply applyMarkdownToDocument_text |].
  unfold applyMarkdownToDocument, call, bind. cbn [Models.state Models.text].
  destruct (Models.state document) as [st |] eqn:Est.
  2: { split; [intros _; split; reflexivity |].
       split; [discriminate |]. split; [discriminate |].
       intros _ _ _ _ _. split; [discriminate |].
       intros (st & Hst & _). discriminate. }
  split; [discriminate |].
  destruct (Y_applyUpdate_throws Y_Doc st) as [e1 |] eqn:E1.
  { split; [intros _; split; reflexivity |]. split.
    - intros st' [= <-]. rewrite E1.
      split; [intros e [= <-]; reflexivity | discriminate].
    - intros H1. rewrite H1 in E1. discriminate. }
  destruct (Y_get_throws (Y_applyUpdate Y_Doc st) "default") as [e2 |] eqn:E2.
  { split; [intros _; split; reflexivity |]. split.
    - intros st' [= <-]. rewrite E1, E2.
      split; [discriminate | intros _].
      split; [intros e [= <-]; reflexivity | discriminate].
    - intros _ H2. rewrite H2 in E2. discriminate. }
  destruct (parser_parse_throws
              (if append then Models.text document +:+ text else text))
    as [e3 |] eqn:E3.
  { split; [intros _; split; reflexivity |]. split.
    - intros st' [= <-]. rewrite E1, E2, ?E3.
      split; [discriminate | intros _].
      split; [discriminate | intros _].
      split; [intros e [= <-]; reflexivity | discriminate].
    - intros _ _ H3. rewrite H3 in E3. discriminate. }
  destruct (fragment_doc (Y_get (Y_applyUpdate Y_Doc st) "default"))
    as [owner |] eqn:E4.
  2: { split; [intros _; split; reflexivity |]. split.
       - intros st' [= <-]. rewrite E1, E2, ?E3, E4.
         split; [discriminate | intros _].
         split; [discriminate | intros _].
         split; [discriminate | intros _].
         split; [reflexivity | discriminate].
       - intros _ _ _ _ _. split; [| reflexivity].
         intros _. exists st. split; [reflexivity | exact E4]. }
  destruct (updateYFragment_throws owner
              (Y_get (Y_applyUpdate Y_Doc st) "default")
              (parser_parse
                 (if append then Models.text document +:+ text else text)))
    as [e5 |] eqn:E5.
  { split; [intros _; split; reflexivity |]. split.
    - intros st' [= <-]. rewrite E1, E2, ?E3, E4.
      split; [discriminate | intros _].
      split; [discriminate | intros _].
      split; [discriminate | intros _].
      split; [discriminate |]. intros owner' [= <-]. rewrite E5.
      split; [intros e [= <-]; reflexivity | discriminate].
    - intros _ _ _ H5. rewrite H5 in E5. discriminate. }
  destruct (Y_encodeStateAsUpdate_throws
              (updateYFragment owner
                 (Y_get (Y_applyUpdate Y_Doc st) "default")
                 (parser_parse
                    (if append then Models.text document +:+ text else text))))
    as [e6 |] eqn:E6.
  { split; [intros _; split; reflexivity |]. split.
    - intros st' [= <-]. rewrite E1, E2, ?E3, E4.
      split; [discriminate | intros _].
      split; [discriminate | intros _].
      split; [discriminate | intros _].
      split; [discriminate |]. intros owner' [= <-]. rewrite E5, E6.
      split; [discriminate | intros _].
      split; [intros e [= <-]; reflexivity | discriminate].
    - intros _ _ _ _ H6. rewrite H6 in E6. discriminate. }
  split; [discriminate |]. split.
  - intros st' [= <-]. rewrite E1, E2, ?E3, E4.
    split; [discriminate | intros _].
    split; [discriminate | intros _].
    split; [discriminate | intros _].
    split; [discriminate |]. intros owner' [= <-]. rewrite E5, E6.
    split; [discriminate | intros _].
    split; [discriminate | intros _].
    repeat split.
  - intros _ _ _ _ _. split; [discriminate |].
    intros (st' & [= <-] & Hnone). rewrite Hnone in E4. discriminate.
Qed.

(** X9. A rendering whose styles rendered has one article, with the title
    and the editor container around the serialised content; the style
    tags are assumed to hold no article and no [#content]. *)
Lemma toHTMLDocument_rendered (document : DocumentOrRevision)
      (options : option HTMLOptions) (st : Styles) (tags : list Dom.Node) :
  renderStyles (isRTL (titleOf document)) (isCentered options)
               (withoutStyles options) = Some st ->
  styleTags st = Some tags ->
  Dom.findFirst (Dom.hasId "content") tags = None ->
  Dom.findFirst (Dom.hasTag "article") tags = None ->
  articleContent (toHTMLDocument document options) =
    Return ((if withTitle options
             then [Dom.Element "h1" [("dir", dir (isRTL (titleOf document)))]
                               [Dom.Text (titleOf document)]]
             else []) ++
            [Dom.Element "div"
               [("dir", dir (isRTL (titleOf document)));
                ("class", editorContainerClass st)]
               [Dom.Element "div" [("id", "content"); ("class", "ProseMirror")]
                            (serializeFragment (toProsemirror document))]]).
Proof.
  intros Hst Htags Hid Htag. unfold toHTMLDocument, renderShell. rewrite Hst, Htags.
  unfold articleContent, shellChildren, Dom.update, Dom.query.
  destruct (withoutStyles options); cbn [Dom.head Dom.body default app].
  - destruct (withTitle options); reflexivity.
  - rewrite (updateFirst_None _ _ _ Hid).
    destruct (isCentered options), (withTitle options);
      cbn; rewrite Htag; reflexivity.
Qed.

(** When the styles do not render, the rendering has no article. *)
Lemma toHTMLDocument_failed (document : DocumentOrRevision)
      (options : option HTMLOptions) :
  renderStyles (isRTL (titleOf document)) (isCentered options)
               (withoutStyles options) = None ->
  articleContent (toHTMLDocument document options) = Throw noArticle.
Proof.
  intros Hst. unfold toHTMLDocument, renderShell. rewrite Hst.
  destruct (withoutStyles options); reflexivity.
Qed.

(** Re-embedding content into a document with an article. *)
Lemma setArticleContent_article (content inner : list Dom.Node)
      (d : Dom.Document) :
  articleContent d = Return inner ->
  articleContent (setArticleContent content d) = Return content /\
  shellOf (setArticleContent content d) = shellOf d.
Proof.
  unfold articleContent, shellOf, setArticleContent. intros Hd.
  destruct (Dom.query (Dom.hasTag "article") d) as [a |] eqn:Ea; [| discriminate].
  split.
  - rewrite (query_update _ (shallow_hasTag "article") _ _ _ Ea).
    pose proof (query_sat _ _ _ Ea) as Hsat.
    destruct a; [discriminate | reflexivity].
  - rewrite (update_twice _ (shallow_hasTag "article")). reflexivity.
Qed.

(** C2, as the code has it.  When both renderings have an article, [diff]
    computes the structural diff of the contents of the two articles
    and puts it into the article of the BEFORE rendering: the result is
    the serialised before rendering with the content of its article
    replaced, so that its shell (head with the styles, article element)
    is the shell of the before rendering. *)
Theorem diff_reembeds_into_before_shell
        (before : DocumentOrRevision) (after : Revision)
        (options : option HTMLOptions)
        (beforeContent afterContent : list Dom.Node) :
  articleContent (toHTMLDocument before options) = Return beforeContent ->
  articleContent (toHTMLDocument (OfRevision after) options) = Return afterContent ->
  exists d,
    diffDocument (Some before) after options = Return d /\
    diff (Some before) after options = Return (Dom.serialize d) /\
    d = setArticleContent (htmldiff beforeContent afterContent)
                          (toHTMLDocument before options) /\
    articleContent d = Return (htmldiff beforeContent afterContent) /\
    shellOf d = shellOf (toHTMLDocument before options).
Proof.
  intros Hb Ha.
  exists (setArticleContent (htmldiff beforeContent afterContent)
                            (toHTMLDocument before options)).
  unfold diff, diffDocument. rewrite Hb, Ha. simpl.
  repeat split; try reflexivity;
    apply (setArticleContent_article _ _ _ Hb).
Qed.

End DocumentHelperFacts.

Section DocumentHelperExamples.
Import Models Js DocumentHelper Fixtures.

Lemma toProsemirror_state_or_markup_witness :
  @toProsemirror engine (OfRevision beforeHeading) = rev_text beforeHeading /\
  @toProsemirror engine
     (OfDocument (document "Title" "stale text" (Some "Live text"))) = "Live text".
Proof.
  split.
  - apply (proj1 (@toProsemirror_state_or_markup engine
                    (OfRevision beforeHeading) (OfRevision beforeHeading))).
    reflexivity.
  - apply (proj1 (proj2 (@toProsemirror_state_or_markup engine
                    (OfDocument (document "Title" "stale text" (Some "Live text")))
                    (OfRevision beforeHeading))
                  (list_byte_of_string "Live text") eq_refl)).
Defined.

(** C5, as the specification has it, fails: a state that does not
    decode makes [applyMarkdownToDocument] throw the exception of the
    decoder, although the fragment of the decoded document has an owning
    document. *)
Lemma applyMarkdownToDocument_throws_on_empty_state :
  Models.state (document "Title" "Old" (Some EmptyString)) = Some [] /\
  @fragment_doc engine
    (@Y_get engine (@Y_applyUpdate engine (@Y_Doc engine) []) "default")
  = Some EmptyString /\
  throws (snd (@applyMarkdownToDocument engine (strictDecoder engine)
                 (document "Title" "Old" (Some EmptyString)) "New" false))
  = true /\
  @applyMarkdownToDocument engine (strictDecoder engine)
     (document "Title" "Old" (Some EmptyString)) "New" false
  = (document "Title" "New" (Some EmptyString),
     Throw (Error "Unexpected end of array")).
Proof. vm_compute. repeat split. Qed.

Lemma applyMarkdownToDocument_merges_witness :
  Models.text (fst (@applyMarkdownToDocument historyEngine (noFailures historyEngine)
                      (document "Title" "Old" (Some "Old")) " and new" true))
  = "Old and new" /\
  Models.state (fst (@applyMarkdownToDocument historyEngine (noFailures historyEngine)
                      (document "Title" "Old" (Some "Old")) " and new" true))
  = Some (list_byte_of_string ("Old" +:+ nl +:+ "Old and new")) /\
  snd (@applyMarkdownToDocument orphanEngine (noFailures orphanEngine)
         (document "Title" "Old" (Some "Old")) "New" false)
  = Throw (Error "type.doc not found") /\
  snd (@applyMarkdownToDocument engine (strictDecoder engine)
         (document "Title" "Old" (Some EmptyString)) "New" false)
  = Throw (Error "Unexpected end of array").
Proof.
  destruct (@applyMarkdownToDocument_merges historyEngine (noFailures historyEngine)
              (document "Title" "Old" (Some "Old")) " and new" true)
    as (Htext & _ & _ & Hstate & _).
  destruct (Hstate (list_byte_of_string "Old") eq_refl) as (_ & Hget).
  destruct (Hget eq_refl) as (_ & Hparse).
  destruct (Hparse eq_refl) as (_ & Hroot).
  destruct (Hroot eq_refl) as (_ & Howner).
  destruct (Howner "Old" eq_refl) as (_ & Hupdate).
  destruct (Hupdate eq_refl) as (_ & Hencode).
  destruct (Hencode eq_refl) as (_ & Hnew & _).
  destruct (@applyMarkdownToDocument_merges orphanEngine (noFailures orphanEngine)
              (document "Title" "Old" (Some "Old")) "New" false)
    as (_ & _ & _ & Horphan & _).
  destruct (Horphan (list_byte_of_string "Old") eq_refl) as (_ & Horphan1).
  destruct (Horphan1 eq_refl) as (_ & Horphan2).
  destruct (Horphan2 eq_refl) as (_ & Horphan3).
  destruct (Horphan3 eq_refl) as (Hthrow & _).
  destruct (@applyMarkdownToDocument_merges engine (strictDecoder engine)
              (document "Title" "Old" (Some EmptyString)) "New" false)
    as (_ & _ & _ & Hstrict & _).
  destruct (Hstrict [] eq_refl) as (Hdecoder & _).
  split; [exact Htext |]. split; [exact Hnew |].
  split; [exact (Hthrow eq_refl) | exact (Hdecoder _ eq_refl)].
Defined.

(** C2, as the specification has it, fails: when the title changes from
    a left-to-right to a right-to-left one, the styles in the head are
    those of the before rendering, not those of the after rendering. *)
Lemma diff_not_in_after_shell :
  @diff engine (Some (OfRevision beforeTitle)) afterTitle None
  <> @diff_as_specified engine (Some (OfRevision beforeTitle)) afterTitle None.
Proof. vm_compute. discriminate. Qed.

Lemma diff_reembeds_into_before_shell_witness :
  exists d,
    @diffDocument engine (Some (OfRevision beforeTitle)) afterTitle None = Return d /\
    Dom.head d = [Dom.Element "style" [] [Dom.Text ".ProseMirror{direction:ltr}"]].
Proof.
  destruct (@diff_reembeds_into_before_shell engine
              (OfRevision beforeTitle) afterTitle None _ _ eq_refl eq_refl)
    as (d & Hd & _ & Heq & _).
  exists d. split; [exact Hd |]. rewrite Heq. reflexivity.
Defined.

End DocumentHelperExamples.

(* ===================================================================== *)
(** ** DocumentHelper: the compaction of toEmailDiff                      *)
(* ===================================================================== *)

Section Compaction.
Import Dom DocumentHelper.

(** *** The loop, cut at a block *)

Lemma loop_run st l : loop st l = run st l [].
Proof.
  revert st. induction l as [| c l IH]; simpl; intros st; [reflexivity |].
  rewrite app_nil_r. destruct (isElement c); apply IH.
Qed.

Lemma run_app st a b f : run st (a ++ b) f = run (run st a (b ++ f)) b f.
Proof.
  revert st. induction a as [| c a IH]; simpl; intros st; [reflexivity |].
  rewrite <- app_assoc. destruct (isElement c); apply IH.
Qed.

Lemma visit_live st c f : live (visit st c f) = live st ++ emitted st c f.
Proof.
  unfold visit, emitted.
  destruct (decide_action (live st) c f); simpl; try reflexivity.
  rewrite app_nil_r. reflexivity.
Qed.

Lemma run_live st v f : live (run st v f) = live st ++ written st v f.
Proof.
  revert st. induction v as [| c v IH]; simpl; intros st.
  - rewrite app_nil_r. reflexivity.
  - destruct (isElement c); rewrite IH.
    + rewrite visit_live, <- app_assoc. reflexivity.
    + simpl. rewrite <- app_assoc. reflexivity.
Qed.

Lemma written_app st a b f :
  written st (a ++ b) f = written st a (b ++ f) ++ written (run st a (b ++ f)) b f.
Proof.
  revert st. induction a as [| c a IH]; simpl; intros st; [reflexivity |].
  rewrite <- (app_assoc a b f).
  destruct (isElement c); rewrite IH.
  - rewrite <- app_assoc. reflexivity.
  - reflexivity.
Qed.

Lemma compact_written l : compact l = written initial l [].
Proof. unfold compact. rewrite loop_run, run_live. reflexivity. Qed.

Lemma reach_live pre c post :
  live (reach pre c post) = written initial pre (c :: post).
Proof. unfold reach. rewrite run_live. reflexivity. Qed.

(** The output around a block: what the loop left of the blocks before
    it, what it writes for the block, and what it writes afterwards. *)
Lemma compact_at pre c post :
  isElement c = true ->
  compact (pre ++ c :: post) =
    live (reach pre c post)
    ++ emitted (reach pre c post) c post
    ++ written (visit (reach pre c post) c post) post [].
Proof.
  intros Hc. rewrite compact_written, written_app, reach_live. simpl.
  rewrite Hc, !app_nil_r. reflexivity.
Qed.

(** *** The branches of the loop body *)

Lemma decide_action_changed pre c f :
  decide_action pre c f = KeepChanged <-> changed c = true.
Proof.
  unfold decide_action, changed.
  destruct (containsDiffElement (Some c)); [tauto |].
  repeat match goal with
         | |- context [if ?b then _ else _] => destruct b
         end; split; discriminate.
Qed.

Lemma decide_action_unchanged pre c f :
  changed c = false ->
  decide_action pre c f =
    if isP (Some c) && Str.truthy (textContent c)
    then if changedParagraph (nextElementSibling f) then KeepLeading
         else if changedParagraph (previousElementSibling pre) then KeepTrailing
              else Remove
    else Remove.
Proof.
  unfold decide_action, changed, changedParagraph. intros ->.
  destruct (isP (Some c)), (Str.truthy (textContent c)); simpl; try reflexivity.
Qed.

Lemma br_unchanged : changed br = false.
Proof. reflexivity. Qed.

Lemma br_not_paragraph : isP (Some br) = false.
Proof. reflexivity. Qed.

(** Whatever the loop keeps is not a break marker. *)
Lemma retained_not_br pre c f :
  retained (decide_action pre c f) = true -> c <> br.
Proof.
  intros Hkept ->.
  rewrite (decide_action_unchanged _ _ _ br_unchanged) in Hkept.
  rewrite br_not_paragraph in Hkept. discriminate.
Qed.

Lemma emitted_cases st c f :
  (decide_action (live st) c f = Remove /\ emitted st c f = []) \/
  (retained (decide_action (live st) c f) = true /\ c <> br /\
   (emitted st c f = [c] \/
    (previousDiffClipped st = true /\ emitted st c f = [br; c]))).
Proof.
  pose proof (retained_not_br (live st) c f) as Hbr.
  unfold emitted.
  destruct (decide_action (live st) c f); simpl in *.
  - right. split; [reflexivity |]. split; [auto |].
    destruct (previousNodeRemoved st), (previousDiffClipped st); simpl; auto.
  - right. split; [reflexivity |]. split; [auto |].
    destruct (previousDiffClipped st); simpl; auto.
  - right. split; [reflexivity |]. split; [auto |]. auto.
  - left. auto.
Qed.

(** *** Siblings *)

Lemma find_app {A} (p : A -> bool) (l1 l2 : list A) :
  List.find p (l1 ++ l2) =
  match List.find p l1 with
  | Some x => Some x
  | None => List.find p l2
  end.
Proof.
  induction l1 as [| x l1 IH]; simpl; [reflexivity |].
  destruct (p x); [reflexivity | exact IH].
Qed.

(** The element before a block, in a list of siblings. *)
Lemma previousElementSibling_split pre m :
  previousElementSibling pre = Some m ->
  exists before texts,
    pre = before ++ m :: texts /\ isElement m = true /\
    forallb (fun n => negb (isElement n)) texts = true.
Proof.
  unfold previousElementSibling.
  induction pre as [| x pre IH] using rev_ind; [discriminate |].
  rewrite rev_app_distr. simpl.
  destruct (isElement x) eqn:Ex.
  - intros [= <-]. exists pre, []. auto.
  - intros Hfind. destruct (IH Hfind) as (before & texts & -> & Hm & Htexts).
    exists before, (texts ++ [x]). rewrite <- app_assoc. simpl.
    split; [reflexivity |]. split; [exact Hm |].
    rewrite forallb_app, Htexts. simpl. rewrite Ex. reflexivity.
Qed.

Lemma previousElementSibling_texts l m texts :
  isElement m = true ->
  forallb (fun n => negb (isElement n)) texts = true ->
  previousElementSibling (l ++ m :: texts) = Some m.
Proof.
  intros Hm Htexts. unfold previousElementSibling.
  rewrite rev_app_distr. simpl. rewrite <- app_assoc, find_app.
  assert (Hnone : List.find isElement (rev texts) = None).
  { clear -Htexts. induction texts as [| x texts IH]; [reflexivity |].
    simpl in *. apply andb_prop in Htexts as [Hx Htexts].
    rewrite find_app, (IH Htexts). simpl.
    destruct (isElement x); [discriminate | reflexivity]. }
  rewrite Hnone. simpl. rewrite Hm. reflexivity.
Qed.

Lemma run_texts st texts f :
  forallb (fun n => negb (isElement n)) texts = true ->
  live (run st texts f) = live st ++ texts.
Proof.
  revert st. induction texts as [| x texts IH]; simpl; intros st Htexts.
  - rewrite app_nil_r. reflexivity.
  - apply andb_prop in Htexts as [Hx Htexts].
    destruct (isElement x); [discriminate |].
    rewrite (IH _ Htexts). simpl. rewrite <- app_assoc. reflexivity.
Qed.

(** A changed block stays, so that it is still the previous element
    sibling when the loop reaches the block after it. *)
Lemma changed_previous_stays pre c post m :
  previousElementSibling pre = Some m ->
  changed m = true ->
  previousElementSibling (live (reach pre c post)) = Some m.
Proof.
  intros Hprev Hm.
  destruct (previousElementSibling_split _ _ Hprev)
    as (before & texts & -> & Hel & Htexts).
  unfold reach. rewrite run_app. simpl. rewrite Hel.
  rewrite (run_texts _ _ _ Htexts), visit_live.
  unfold emitted.
  rewrite (proj2 (decide_action_changed _ m _) Hm).
  rewrite <- !app_assoc.
  match goal with
  | |- previousElementSibling (?a ++ ?b ++ [m] ++ texts) = _ =>
      replace (a ++ b ++ [m] ++ texts) with ((a ++ b) ++ m :: texts)
        by (rewrite <- app_assoc; reflexivity)
  end.
  apply previousElementSibling_texts; assumption.
Qed.

(** So does every block that the loop keeps. *)
Lemma kept_previous_stays before m texts c post :
  isElement m = true ->
  forallb (fun n => negb (isElement n)) texts = true ->
  retained (fate before m (texts ++ c :: post)) = true ->
  previousElementSibling (live (reach (before ++ m :: texts) c post)) = Some m.
Proof.
  intros Hel Htexts Hkept.
  unfold reach. rewrite run_app. simpl. rewrite Hel.
  rewrite (run_texts _ _ _ Htexts), visit_live.
  unfold fate, reach in Hkept.
  destruct (emitted_cases (run initial before (m :: texts ++ c :: post)) m
                          (texts ++ c :: post))
    as [[Hremove _] | (_ & _ & [-> | [_ ->]])].
  - rewrite Hremove in Hkept. discriminate.
  - rewrite <- !app_assoc. simpl.
    apply previousElementSibling_texts; assumption.
  - rewrite <- !app_assoc.
    match goal with
    | |- previousElementSibling (?a ++ [br; m] ++ texts) = _ =>
        replace (a ++ [br; m] ++ texts) with ((a ++ [br]) ++ m :: texts)
          by (rewrite <- app_assoc; reflexivity)
    end.
    apply previousElementSibling_texts; assumption.
Qed.

(** A block without an element before it in the document has none
    before it when the loop reaches it. *)
Lemma first_element_stays pre c post :
  previousElementSibling pre = None ->
  previousElementSibling (live (reach pre c post)) = None.
Proof.
  intros Hnone.
  assert (Htexts : forallb (fun n => negb (isElement n)) pre = true).
  { apply forallb_forall. intros x Hin.
    unfold previousElementSibling in Hnone.
    rewrite (find_none _ _ Hnone x (proj1 (in_rev pre x) Hin)). reflexivity. }
  unfold reach. rewrite (run_texts _ _ _ Htexts). exact Hnone.
Qed.

End Compaction.

Section CompactionClaims.
Import Dom DocumentHelper.

(** C3, as the code has it.  For an unchanged block of the content:
    a paragraph with text whose next element sibling is a changed
    paragraph is kept as leading context; a paragraph with text whose
    previous element sibling is a changed paragraph is kept; a block
    that is not a paragraph is removed, and so is a paragraph without
    text.  Context is one hop, by the siblings of the document: a block
    without an element before it is kept only as leading context; a
    block whose previous element sibling [m] was kept is kept only when
    its next element sibling or [m] is a changed paragraph, so that next
    to a paragraph [m] kept as context it is removed unless a changed
    paragraph follows it.  The block is written to the output, after a
    break marker or not, exactly when it is kept. *)
Theorem context_is_one_hop (preceding : list Node) (c : Node)
        (following : list Node) :
  isElement c = true ->
  changed c = false ->
  (isP (Some c) = true -> Str.truthy (textContent c) = true ->
   changedParagraph (nextElementSibling following) = true ->
   fate preceding c following = KeepLeading) /\
  (isP (Some c) = true -> Str.truthy (textContent c) = true ->
   changedParagraph (previousElementSibling preceding) = true ->
   retained (fate preceding c following) = true) /\
  (isP (Some c) = false -> fate preceding c following = Remove) /\
  (retained (fate preceding c following) = true ->
   isP (Some c) = true /\ Str.truthy (textContent c) = true) /\
  (previousElementSibling preceding = None ->
   retained (fate preceding c following) = true ->
   changedParagraph (nextElementSibling following) = true) /\
  (forall before m texts,
      preceding = before ++ m :: texts ->
      isElement m = true ->
      forallb (fun n => negb (isElement n)) texts = true ->
      retained (fate before m (texts ++ c :: following)) = true ->
      retained (fate preceding c following) = true ->
      changedParagraph (nextElementSibling following) = true \/
      changedParagraph (Some m) = true) /\
  (forall before m texts,
      preceding = before ++ m :: texts ->
      isElement m = true ->
      forallb (fun n => negb (isElement n)) texts = true ->
      retained (fate before m (texts ++ c :: following)) = true ->
      changed m = false ->
      changedParagraph (nextElementSibling following) = false ->
      fate preceding c following = Remove) /\
  compact (preceding ++ c :: following) =
    live (reach preceding c following)
    ++ emitted (reach preceding c following) c following
    ++ written (visit (reach preceding c following) c following) following [] /\
  (retained (fate preceding c following) = false ->
   emitted (reach preceding c following) c following = []) /\
  (retained (fate preceding c following) = true ->
   emitted (reach preceding c following) c following = [c] \/
   emitted (reach preceding c following) c following = [br; c]).
Proof.
  intros Hel Hun. unfold fate.
  rewrite (decide_action_unchanged _ _ _ Hun).
  split; [| split; [| split; [| split; [| split; [| split; [| split;
    [| split; [| split]]]]]]]].
  - intros -> -> ->. reflexivity.
  - intros -> -> Hprev. simpl.
    destruct (changedParagraph (nextElementSibling following)); [reflexivity |].
    destruct (previousElementSibling preceding) as [m |] eqn:Em;
      [| discriminate].
    assert (Hm : changed m = true).
    { unfold changedParagraph in Hprev. apply andb_prop in Hprev. tauto. }
    rewrite (changed_previous_stays _ c following _ Em Hm), Hprev.
    reflexivity.
  - intros ->. reflexivity.
  - intros Hkept.
    destruct (isP (Some c)); [| discriminate].
    destruct (Str.truthy (textContent c)); [| discriminate].
    split; reflexivity.
  - intros Hnone Hkept.
    rewrite (first_element_stays _ c following Hnone) in Hkept.
    destruct (isP (Some c) && Str.truthy (textContent c)); [| discriminate].
    destruct (changedParagraph (nextElementSibling following));
      [reflexivity | discriminate].
  - intros before m texts -> Hm Htexts Hprevious Hkept.
    rewrite (kept_previous_stays _ _ _ c following Hm Htexts Hprevious) in Hkept.
    destruct (isP (Some c) && Str.truthy (textContent c)); [| discriminate].
    destruct (changedParagraph (nextElementSibling following)); [auto |].
    destruct (changedParagraph (Some m)); [auto | discriminate].
  - intros before m texts -> Hm Htexts Hprevious Hunchanged Hnext.
    rewrite (kept_previous_stays _ _ _ c following Hm Htexts Hprevious), Hnext.
    assert (Hnot : changedParagraph (Some m) = false).
    { unfold changedParagraph. fold (changed m). rewrite Hunchanged.
      apply andb_false_r. }
    rewrite Hnot.
    destruct (isP (Some c) && Str.truthy (textContent c)); reflexivity.
  - apply compact_at. exact Hel.
  - intros Hfate.
    destruct (emitted_cases (reach preceding c following) c following)
      as [[_ Hnil] | [Hkept _]]; [exact Hnil |].
    rewrite (decide_action_unchanged _ _ _ Hun) in Hkept. congruence.
  - intros Hfate.
    destruct (emitted_cases (reach preceding c following) c following)
      as [[Hremove _] | (_ & _ & [Hone | [_ Htwo]])]; auto.
    rewrite (decide_action_unchanged _ _ _ Hun) in Hremove.
    rewrite Hremove in Hfate. discriminate.
Qed.

(** *** Break markers *)

Lemma breaksFollowed_snoc l n :
  breaksFollowed l -> n <> br -> breaksFollowed (l ++ [n]).
Proof.
  intros Hl Hn. induction l as [| x l IH]; simpl in *.
  - split; [contradiction | exact I].
  - destruct Hl as [Hx Hl]. split; [| exact (IH Hl)].
    intros Hbr. specialize (Hx Hbr). destruct l; simpl; [contradiction | exact Hx].
Qed.

Lemma breaksFollowed_break l n :
  breaksFollowed l -> n <> br -> breaksFollowed (l ++ [br; n]).
Proof.
  intros Hl Hn. induction l as [| x l IH]; simpl in *.
  - split; [auto | split; [exact Hn | exact I]].
  - destruct Hl as [Hx Hl]. split; [| exact (IH Hl)].
    intros Hbr. specialize (Hx Hbr). destruct l; simpl; [contradiction | exact Hx].
Qed.

Lemma visit_breaksFollowed st c f :
  breaksFollowed (live st) -> breaksFollowed (live (visit st c f)).
Proof.
  intros Hst. rewrite visit_live.
  destruct (emitted_cases st c f)
    as [[_ ->] | (_ & Hbr & [-> | [_ ->]])].
  - rewrite app_nil_r. exact Hst.
  - apply breaksFollowed_snoc; assumption.
  - apply breaksFollowed_break; assumption.
Qed.

Lemma run_breaksFollowed st v f :
  breaksFollowed (live st) -> breaksFollowed (live (run st v f)).
Proof.
  revert st. induction v as [| c v IH]; simpl; intros st Hst; [exact Hst |].
  destruct (isElement c) eqn:Ec.
  - apply IH, visit_breaksFollowed, Hst.
  - apply IH. simpl. apply breaksFollowed_snoc; [exact Hst |].
    intros ->. discriminate.
Qed.

(** The output never holds two break markers in a row, and never ends
    with one. *)
Lemma compact_no_adjacent_breaks contents :
  (forall o1 o2, compact contents <> o1 ++ br :: br :: o2) /\
  (forall o1, compact contents <> o1 ++ [br]).
Proof.
  assert (H : breaksFollowed (compact contents)).
  { unfold compact. rewrite loop_run. apply run_breaksFollowed. exact I. }
  split.
  - intros o1 o2 Heq. rewrite Heq in H. clear Heq.
    induction o1 as [| x o1 IH]; simpl in H.
    + destruct H as [H _]. apply (H eq_refl). reflexivity.
    + apply IH, H.
  - intros o1 Heq. rewrite Heq in H. clear Heq.
    induction o1 as [| x o1 IH]; simpl in H.
    + destruct H as [H _]. exact (H eq_refl).
    + apply IH, H.
Qed.

(** A break marker is written only after a changed block was kept. *)
Lemma visit_clipped st c f :
  isElement c = true ->
  clipped_has_element st -> clipped_has_element (visit st c f).
Proof.
  intros Hel [Hfirst Hclipped]. unfold clipped_has_element.
  rewrite visit_live, find_app.
  destruct (List.find isElement (live st)) as [x |] eqn:Ex.
  - split; [exact Hfirst | discriminate].
  - assert (Hflag : previousDiffClipped st = false).
    { destruct (previousDiffClipped st); [| reflexivity].
      exfalso. apply Hclipped; reflexivity. }
    destruct (emitted_cases st c f)
      as [[Hremove Hnil] | (Hkept & Hbr & [Hone | [Hyes _]])].
    + rewrite Hnil. simpl. split; [discriminate |].
      unfold visit. rewrite Hremove. simpl. rewrite Hflag. discriminate.
    + rewrite Hone. simpl. rewrite Hel. split; [congruence | discriminate].
    + congruence.
Qed.

Lemma run_clipped st v f :
  clipped_has_element st -> clipped_has_element (run st v f).
Proof.
  revert st. induction v as [| c v IH]; simpl; intros st Hst; [exact Hst |].
  destruct (isElement c) eqn:Ec.
  - apply IH, visit_clipped; assumption.
  - apply IH. destruct Hst as [Hfirst Hclipped].
    unfold clipped_has_element, pass. simpl. rewrite find_app. simpl. rewrite Ec.
    destruct (List.find isElement (live st)); [auto |].
    split; [discriminate |]. intros Hflag. exfalso. apply (Hclipped Hflag).
    reflexivity.
Qed.

(** The first element of the output is never a break marker. *)
Lemma compact_no_leading_break contents :
  List.find isElement (compact contents) <> Some br.
Proof.
  unfold compact. rewrite loop_run.
  apply (run_clipped initial contents []).
  split; discriminate.
Qed.

End CompactionClaims.

Section CompactionExamples.
Import Models Js Dom DocumentHelper Fixtures.

(** C3, as the specification has it, fails: an unchanged paragraph
    directly above a changed list is not kept as leading context, and
    neither is an unchanged paragraph without text directly above a
    changed paragraph. *)
Lemma paragraph_above_changed_list_removed :
  isP (Some pIntroduction) = true /\
  changed pIntroduction = false /\
  nextElementSibling [ulChanged] = Some ulChanged /\
  changed ulChanged = true /\
  retained (fate [] pIntroduction [ulChanged]) = false /\
  compact [pIntroduction; ulChanged] = [ulChanged] /\
  @toEmailDiff engine (Some (OfRevision beforeList)) afterList None =
    Return (headAndBody (rendering [ulChanged])) /\
  isP (Some pEmpty) = true /\
  changed pEmpty = false /\
  changedParagraph (nextElementSibling [pChanged]) = true /\
  retained (fate [] pEmpty [pChanged]) = false /\
  compact [pEmpty; pChanged] = [pChanged].
Proof. vm_compute. repeat split. Qed.

Lemma context_is_one_hop_witness :
  fate [pChanged] pClosing [] = KeepTrailing /\
  fate [] pIntroduction [pChanged] = KeepLeading /\
  fate [pChanged] hHeading [] = Remove /\
  compact ([pChanged] ++ pClosing :: []) = [pChanged; pClosing] /\
  fate [pChanged; pClosing] pIntroduction [] = Remove.
Proof.
  destruct (context_is_one_hop [pChanged] pClosing [] eq_refl eq_refl)
    as (_ & Htrailing & _ & _ & _ & _ & _ & Hout & _ & _).
  destruct (context_is_one_hop [] pIntroduction [pChanged] eq_refl eq_refl)
    as (Hleading & _).
  destruct (context_is_one_hop [pChanged] hHeading [] eq_refl eq_refl)
    as (_ & _ & Hother & _).
  destruct (context_is_one_hop [pChanged; pClosing] pIntroduction []
                               eq_refl eq_refl)
    as (_ & _ & _ & _ & _ & _ & Hhop & _).
  split; [| split; [| split; [| split]]].
  - specialize (Htrailing eq_refl eq_refl eq_refl).
    destruct (fate [pChanged] pClosing []) eqn:Efate;
      first [reflexivity | discriminate].
  - exact (Hleading eq_refl eq_refl eq_refl).
  - exact (Hother eq_refl).
  - rewrite Hout. reflexivity.
  - exact (Hhop [pChanged] pClosing [] eq_refl eq_refl eq_refl eq_refl
                eq_refl eq_refl).
Defined.

(** C4 at a content where a heading is dropped between a changed
    paragraph and the paragraph after it: the heading is removed, the
    paragraph after it is then kept as trailing context of the changed
    paragraph, and no break marker stands at the seam. *)
Theorem seam_without_break :
  fate [] pChanged [hHeading; pClosing] = KeepChanged /\
  fate [pChanged] hHeading [pClosing] = Remove /\
  fate [pChanged; hHeading] pClosing [] = KeepTrailing /\
  compact [pChanged; hHeading; pClosing] = [pChanged; pClosing] /\
  @toEmailDiff engine (Some (OfRevision beforeHeading)) afterHeading None =
    Return (headAndBody (rendering [pChanged; pClosing])).
Proof. vm_compute. repeat split. Qed.

(** A paragraph between two changed paragraphs is kept as leading
    context of the second one, and a break marker is written before it
    although nothing was dropped. *)
Lemma break_without_seam :
  compact [pChanged; pClosing; pChanged] = [pChanged; br; pClosing; pChanged].
Proof. reflexivity. Qed.

End CompactionExamples.

(* ===================================================================== *)
(** ** PersistenceExtension: load and store                               *)
(* ===================================================================== *)

Section PersistenceFacts.
Import Models Js PersistenceExtension.
Context `{E : Engine}.

(** C6. When the live structure is already populated, [onLoadDocument]
    touches nothing and returns nothing.  Otherwise it reads the row of
    the document inside one transaction with an update lock; a row with
    state is decoded and returned and the database stays as it was; for
    a row without state the structure built from the Markdown text is
    returned after its encoding was written to the row in the same
    transaction, before the commit. *)
Theorem onLoadDocument_loads (documentName : string) (document : YDoc)
        (w : World) :
  (Y_isEmpty document "default" = false ->
   onLoadDocument documentName document w = (w, Return None)) /\
  (forall i row,
      Y_isEmpty document "default" = true ->
      documentIdOf documentName = Some i ->
      db w !! i = Some row ->
      exists w',
        fst (onLoadDocument documentName document w) = w' /\
        match Models.state row with
        | Some st =>
            snd (onLoadDocument documentName document w)
              = Return (Some (Y_applyUpdate Y_Doc st)) /\
            db w' = db w /\
            events w' =
              events w ++ [Begin; FindOne (Some i) (Some LOCK_UPDATE); Commit]
        | None =>
            let ydoc := markdownToYDoc (Models.text row) "default" in
            let st := Y_encodeStateAsUpdate ydoc in
            snd (onLoadDocument documentName document w) = Return (Some ydoc) /\
            (exists row', db w' = <[Models.id row := row']> (db w) /\
                          Models.state row' = Some st /\
                          Models.text row' = Models.text row) /\
            events w' =
              events w ++ [Begin; FindOne (Some i) (Some LOCK_UPDATE);
                           Update (Models.id row) st; Commit]
        end).
Proof.
  unfold onLoadDocument. split.
  - intros ->. reflexivity.
  - intros i row -> -> Hrow. simpl.
    unfold transaction, findOne. simpl. rewrite Hrow.
    eexists; split; [reflexivity |].
    destruct (Models.state row) as [st |] eqn:Est; simpl.
    + repeat split. rewrite <- !app_assoc. reflexivity.
    + repeat split.
      * eexists; repeat split.
      * rewrite <- !app_assoc. reflexivity.
Qed.

(** The sets of editors stay populated. *)
Lemma populated_empty : populated ∅.
Proof. intros name editors Hin. rewrite lookup_empty in Hin. discriminate. Qed.

Lemma populated_onChange collaborators user documentName :
  populated collaborators -> populated (onChange collaborators user documentName).
Proof.
  intros Hpop name editors. unfold onChange.
  destruct (decide (documentName = name)) as [-> | Hne].
  - rewrite lookup_insert_eq. intros [= <-]. unfold set_add.
    destruct (bool_decide (user ∈ default [] (collaborators !! name))) eqn:Ein.
    + apply bool_decide_eq_true in Ein. intros Hnil. rewrite Hnil in Ein.
      inversion Ein.
    + intros Hnil. apply app_eq_nil in Hnil as [_ Hnil]. discriminate.
  - rewrite lookup_insert_ne by exact Hne. apply Hpop.
Qed.

Lemma pop_member (editors : list UserId) :
  editors <> [] -> Some (pop editors) = last editors /\ pop editors ∈ editors.
Proof.
  intros Hne. unfold pop.
  destruct editors as [| x editors] using rev_ind; [contradiction |].
  rewrite last_snoc. split; [reflexivity |].
  apply elem_of_app. right. apply list_elem_of_singleton. reflexivity.
Qed.

(** C7. [onStoreDocument] takes the set of editors of the document name
    out of the map; the author it passes to the document persistence is
    the triggering user when no editor was recorded, and otherwise the
    member of the set that was added last; whether the persistence
    returns or throws, [onStoreDocument] returns.  A failure is logged:
    the log it leaves is the log the persistence left followed by one
    error line with the message, the error, the document id and the
    triggering user, and the rows and statements are as the persistence
    left them; when the persistence returns, the world is the one it
    left. *)
Theorem onStoreDocument_attributes_and_catches
        (updater : option string -> YDoc -> UserId -> World -> World * Outcome unit)
        (collaborators : gmap string (list UserId)) (document : YDoc)
        (user : UserId) (documentName : string) (w : World) :
  populated collaborators ->
  exists author w1 result,
    updater (documentIdOf documentName) document author w = (w1, result) /\
    (collaborators !! documentName = None -> author = user) /\
    (forall editors, collaborators !! documentName = Some editors ->
                     Some author = last editors /\ author ∈ editors) /\
    onStoreDocument updater collaborators document user documentName w =
      (delete documentName collaborators,
       match result with
       | Return _ => w1
       | Throw err =>
           log (LogError "Unable to persist document" err
                         (documentIdOf documentName) user) w1
       end,
       Return tt) /\
    populated (delete documentName collaborators) /\
    (forall err,
        result = Throw err ->
        let w' := snd (fst (onStoreDocument updater collaborators document
                                            user documentName w)) in
        logs w' = logs w1 ++ [LogError "Unable to persist document" err
                                       (documentIdOf documentName) user] /\
        db w' = db w1 /\
        events w' = events w1) /\
    (forall v,
        result = Return v ->
        snd (fst (onStoreDocument updater collaborators document
                                  user documentName w)) = w1).
Proof.
  intros Hpop. unfold onStoreDocument.
  set (ids := match collaborators !! documentName with
              | Some s => s
              | None => [user]
              end).
  destruct (updater (documentIdOf documentName) document (pop ids) w)
    as [w1 result] eqn:Eup.
  exists (pop ids), w1, result.
  split; [exact Eup |]. split; [| split; [| split; [| split; [| split]]]].
  - intros Hnone. unfold ids. rewrite Hnone. reflexivity.
  - intros editors Hsome. unfold ids. rewrite Hsome.
    apply pop_member. exact (Hpop _ _ Hsome).
  - destruct result; reflexivity.
  - intros name editors Hin.
    apply lookup_delete_Some in Hin as [_ Hin]. exact (Hpop _ _ Hin).
  - intros err ->. cbv zeta. cbn [fst snd log logs db events].
    repeat split.
  - intros v ->. reflexivity.
Qed.

End PersistenceFacts.

Section PersistenceExamples.
Import Models Js PersistenceExtension Fixtures.

Lemma onLoadDocument_loads_witness :
  exists w',
    @onLoadDocument engine "document.d1" EmptyString world =
      (w', Return (Some "Body")) /\
    events w' = [Begin; FindOne (Some "d1") (Some LOCK_UPDATE);
                 Update "d1" (list_byte_of_string "Body"); Commit].
Proof.
  destruct (proj2 (@onLoadDocument_loads engine "document.d1" EmptyString world)
                  "d1" (document "Title" "Body" None) eq_refl eq_refl eq_refl)
    as (w' & Hw & Hret & _ & Hev).
  exists w'. split; [| exact Hev].
  rewrite (surjective_pairing
             (@onLoadDocument engine "document.d1" EmptyString world)).
  rewrite Hw, Hret. reflexivity.
Defined.

Lemma onStoreDocument_attributes_and_catches_witness :
  snd (@onStoreDocument engine failingUpdater
       (onChange (onChange ∅ (Some "u1") "document.d1")
                 (Some "u2") "document.d1")
       "Body" (Some "u3") "document.d1" world) = Return tt /\
  logs (snd (fst (@onStoreDocument engine failingUpdater
       (onChange (onChange ∅ (Some "u1") "document.d1")
                 (Some "u2") "document.d1")
       "Body" (Some "u3") "document.d1" world))) =
    [LogError "Unable to persist document" (Rejected "no revision for u2")
              (Some "d1") (Some "u3")] /\
  db (snd (fst (@onStoreDocument engine failingUpdater
       (onChange (onChange ∅ (Some "u1") "document.d1")
                 (Some "u2") "document.d1")
       "Body" (Some "u3") "document.d1" world))) = db world /\
  events (snd (fst (@onStoreDocument engine failingUpdater
       (onChange (onChange ∅ (Some "u1") "document.d1")
                 (Some "u2") "document.d1")
       "Body" (Some "u3") "document.d1" world))) = [].
Proof.
  destruct (@onStoreDocument_attributes_and_catches engine failingUpdater
              (onChange (onChange ∅ (Some "u1") "document.d1")
                        (Some "u2") "document.d1")
              "Body" (Some "u3") "document.d1" world
              (populated_onChange _ _ _ (populated_onChange _ _ _ populated_empty)))
    as (author & w1 & result & Hcall & _ & Hlast & Hstore & _ & Hlog & _).
  destruct (Hlast [Some "u1"; Some "u2"] eq_refl) as [Hauthor _].
  injection Hauthor as ->.
  injection Hcall as <- <-.
  destruct (Hlog _ eq_refl) as (Hlogs & Hdb & Hevents).
  split; [rewrite Hstore; reflexivity |].
  split; [exact Hlogs |]. split; [exact Hdb | exact Hevents].
Defined.

End PersistenceExamples.

(* ===================================================================== *)
(** ** BaseEmail: send                                                    *)
(* ===================================================================== *)

Section BaseEmailFacts.
Import Js BaseEmail.
Variables (T S Component : Type).
Variable to : T -> string.
Variable sendMailFails : Mail Component -> option Exn.
Variable updateFails : string -> option Exn.
Variable now : nat.

Local Abbreviation send := (send T S Component to sendMailFails updateFails now).
Local Abbreviation mailOf := (mailOf T S Component to).
Local Abbreviation gather := (gather T S Component).

(** C9. Once [beforeSend] has let the email through: when the delivery
    fails, [send] counts [email.sending_failed] and throws the error of
    the delivery, and nothing else changes; when the delivery succeeds
    and stamping [emailedAt] on the notification fails, [send] returns,
    the mail stays delivered and counted as sent, the failure is logged
    and the notifications are as they were; when both succeed, the
    notification is stamped. *)
Theorem send_delivery_and_bookkeeping
        (tpl : Template T S Component) (props : T)
        (metadata : option NotificationMetadata) (data : Data T S)
        (w : World Component) :
  gather tpl props = Return (Some data) ->
  (forall err,
      sendMailFails (mailOf tpl props data) = Some err ->
      snd (send tpl props metadata w) = Throw err /\
      metrics (fst (send tpl props metadata w)) =
        metrics w ++ [("email.sending_failed", name tpl)] /\
      outbox (fst (send tpl props metadata w)) = outbox w /\
      logs (fst (send tpl props metadata w)) = logs w /\
      emailedAt (fst (send tpl props metadata w)) = emailedAt w) /\
  (forall nid,
      sendMailFails (mailOf tpl props data) = None ->
      notificationIdOf metadata = Some nid ->
      snd (send tpl props metadata w) = Return tt /\
      outbox (fst (send tpl props metadata w)) =
        outbox w ++ [mailOf tpl props data] /\
      metrics (fst (send tpl props metadata w)) =
        metrics w ++ [("email.sent", name tpl)] /\
      match updateFails nid with
      | Some err =>
          logs (fst (send tpl props metadata w)) =
            logs w ++ [LogError "Failed to update notification" err metadata] /\
          emailedAt (fst (send tpl props metadata w)) = emailedAt w
      | None =>
          logs (fst (send tpl props metadata w)) = logs w /\
          emailedAt (fst (send tpl props metadata w)) =
            alter (fun _ => Some now) nid (emailedAt w)
      end).
Proof.
  intros Hdata. unfold BaseEmail.send. rewrite Hdata.
  unfold deliver, sendMail. split.
  - intros err ->. simpl. repeat split.
  - intros nid -> ->. unfold notificationUpdate.
    destruct (updateFails nid); simpl; repeat split.
Qed.

End BaseEmailFacts.

Section BaseEmailExamples.
Import Js BaseEmail Fixtures.

Lemma send_delivery_and_bookkeeping_witness :
  snd (BaseEmail.send string unit string (fun props => props)
         rejectAll rejectAll 0 template "user@example.com" metadata mailbox)
    = Throw (Rejected "unavailable") /\
  snd (BaseEmail.send string unit string (fun props => props)
         acceptAll rejectAll 0 template "user@example.com" metadata mailbox)
    = Return tt.
Proof.
  split.
  - apply (proj1 (send_delivery_and_bookkeeping string unit string
                    (fun props => props) rejectAll rejectAll 0 template
                    "user@example.com" metadata
                    ("user@example.com", None) mailbox eq_refl)
                 (Rejected "unavailable") eq_refl).
  - apply (proj2 (send_delivery_and_bookkeeping string unit string
                    (fun props => props) acceptAll rejectAll 0 template
                    "user@example.com" metadata
                    ("user@example.com", None) mailbox eq_refl)
                 "n1" eq_refl eq_refl).
Defined.

End BaseEmailExamples.

(* ===================================================================== *)
(** ** NotificationsProcessor: subscriptions of collaborators             *)
(* ===================================================================== *)

Section NotificationsFacts.
Import NotificationsProcessor.

Lemma isFor_newSubscription document user other :
  isFor other document "documents.update" (newSubscription document user)
  = String.eqb user other.
Proof.
  unfold isFor, newSubscription. simpl.
  rewrite String.eqb_refl, !andb_true_r. reflexivity.
Qed.

Lemma holds_app subs more user document :
  holds (subs ++ more) user document
  = holds subs user document || holds more user document.
Proof. unfold holds. apply existsb_app. Qed.

Lemma holds_created document created user :
  holds (map (newSubscription document) created) user document
  = bool_decide (user ∈ created).
Proof.
  induction created as [| x created IH].
  - reflexivity.
  - unfold holds in *. simpl. rewrite IH, isFor_newSubscription.
    destruct (String.eqb x user) eqn:Ex; simpl.
    + apply String.eqb_eq in Ex as ->. symmetry.
      apply bool_decide_eq_true. apply elem_of_cons. auto.
    + apply String.eqb_neq in Ex.
      apply bool_decide_ext. rewrite elem_of_cons. split; [auto |].
      intros [-> | H]; [contradiction | exact H].
Qed.

(** The users for whom [createSubscriptions] creates a subscription when
    it starts after having created some for [seen]. *)
Lemma createSubscriptions_created collaboratorIds document st seen base :
  subscriptions st = base ++ map (newSubscription document) (rev seen) ->
  let created :=
    firstOccurrences seen
      (List.filter (fun u => negb (holds base u document)) collaboratorIds) in
  createSubscriptions collaboratorIds document st =
    {| subscriptions := subscriptions st ++ map (newSubscription document) created;
       events := events st ++ map (newEvent document) created |}.
Proof.
  revert st seen.
  induction collaboratorIds as [| user rest IH]; intros st seen Hst; simpl.
  - rewrite !app_nil_r. destruct st; reflexivity.
  - rewrite Hst, holds_app, holds_created.
    destruct (holds base user document) eqn:Ebase; simpl.
    + rewrite <- Hst. apply IH. exact Hst.
    + assert (Hrev : bool_decide (user ∈ rev seen) = bool_decide (user ∈ seen)).
      { apply bool_decide_ext. rewrite !list_elem_of_In. symmetry. apply in_rev. }
      rewrite Hrev.
      destruct (bool_decide (user ∈ seen)) eqn:Eseen.
      * rewrite <- Hst. apply IH. exact Hst.
      * rewrite <- Hst.
        rewrite (IH (subscribe user document st) (user :: seen)).
        -- simpl. rewrite <- !app_assoc. reflexivity.
        -- simpl. rewrite Hst, map_app, <- app_assoc. reflexivity.
Qed.

Lemma firstOccurrences_subset seen l user :
  user ∈ firstOccurrences seen l -> user ∈ l.
Proof.
  revert seen. induction l as [| x l IH]; simpl; intros seen Hin; [exact Hin |].
  destruct (bool_decide (x ∈ seen)).
  - apply elem_of_cons. right. exact (IH _ Hin).
  - apply elem_of_cons in Hin as [-> | Hin]; apply elem_of_cons; eauto.
Qed.

Lemma filter_created_other document created user :
  user ∉ created ->
  List.filter (isFor user document "documents.update")
              (map (newSubscription document) created) = [].
Proof.
  induction created as [| x created IH]; intros Hnot; [reflexivity |].
  simpl. rewrite isFor_newSubscription.
  destruct (String.eqb x user) eqn:Ex.
  - apply String.eqb_eq in Ex as ->. exfalso. apply Hnot.
    apply elem_of_cons. auto.
  - apply IH. intros Hin. apply Hnot. apply elem_of_cons. auto.
Qed.

(** C8.  The side effect appends one subscription and one
    [subscriptions.create] event for each collaborator who holds no
    enabled or soft-deleted subscription for the update event, in
    collaborator order and once per collaborator; a user with a
    soft-deleted subscription for the document is not among them: the
    subscriptions of that user for the document are the ones there were
    before, and no event is emitted for that user. *)
Theorem createSubscriptions_sticky (collaboratorIds : list string)
        (document : string) (st : Store) :
  exists created,
    created =
      firstOccurrences []
        (List.filter (fun u => negb (holds (subscriptions st) u document))
                     collaboratorIds) /\
    createSubscriptions collaboratorIds document st =
      {| subscriptions :=
           subscriptions st ++ map (newSubscription document) created;
         events := events st ++ map (newEvent document) created |} /\
    (forall user s,
        s ∈ subscriptions st ->
        isFor user document "documents.update" s = true ->
        softDeleted s = true ->
        (user ∉ created) /\
        List.filter (isFor user document "documents.update")
                    (subscriptions (createSubscriptions collaboratorIds document st))
        = List.filter (isFor user document "documents.update") (subscriptions st) /\
        (newEvent document user ∉ map (newEvent document) created)).
Proof.
  eexists. split; [reflexivity |].
  assert (Hcreated := createSubscriptions_created collaboratorIds document st []
                        (subscriptions st)).
  simpl in Hcreated. rewrite app_nil_r in Hcreated.
  specialize (Hcreated eq_refl).
  split; [exact Hcreated |].
  intros user s Hs Hfor Hdel.
  assert (Hholds : holds (subscriptions st) user document = true).
  { unfold holds. apply existsb_exists. exists s.
    split; [apply list_elem_of_In; exact Hs |].
    rewrite Hfor, Hdel, orb_true_r. reflexivity. }
  assert (Hnot : user ∉ firstOccurrences []
            (List.filter (fun u => negb (holds (subscriptions st) u document))
                         collaboratorIds)).
  { intros Hin. apply firstOccurrences_subset in Hin.
    apply list_elem_of_In, filter_In in Hin as [_ Hin].
    rewrite Hholds in Hin. discriminate. }
  split; [exact Hnot |]. split.
  - rewrite Hcreated. simpl.
    rewrite List.filter_app, (filter_created_other _ _ _ Hnot), app_nil_r.
    reflexivity.
  - intros Hin. apply list_elem_of_fmap in Hin as (u & Heq & Hu).
    injection Heq as <-. exact (Hnot Hu).
Qed.

End NotificationsFacts.

Section NotificationsExamples.
Import NotificationsProcessor Fixtures.

Lemma createSubscriptions_sticky_witness :
  map ev_userId
      (events (createSubscriptions
                 ["collaborator0"; "collaborator1"; "collaborator2"]
                 "d1" unsubscribed))
  = ["collaborator0"; "collaborator1"].
Proof.
  destruct (createSubscriptions_sticky
              ["collaborator0"; "collaborator1"; "collaborator2"]
              "d1" unsubscribed) as (created & -> & -> & _).
  reflexivity.
Defined.

End NotificationsExamples.

(* ===================================================================== *)
(** ** More on the compaction of toEmailDiff                              *)
(* ===================================================================== *)

Section CompactionMore.
Import Dom DocumentHelper.

Lemma text_unchanged s : changed (Text s) = false.
Proof. reflexivity. Qed.

Lemma removed_unchanged pre c f : decide_action pre c f = Remove -> changed c = false.
Proof.
  intros Hremove. destruct (changed c) eqn:Ec; [| reflexivity].
  apply (decide_action_changed pre c f) in Ec. congruence.
Qed.

Lemma emitted_changed st c f :
  List.filter changed (emitted st c f) = List.filter changed [c].
Proof.
  destruct (emitted_cases st c f)
    as [[Hremove ->] | (_ & _ & [-> | [_ ->]])].
  - simpl. rewrite (removed_unchanged _ _ _ Hremove). reflexivity.
  - reflexivity.
  - reflexivity.
Qed.

Lemma written_changed st v f :
  List.filter changed (written st v f) = List.filter changed v.
Proof.
  revert st. induction v as [| c v IH]; intros st; [reflexivity |].
  simpl written. destruct (isElement c) eqn:Ec.
  - rewrite List.filter_app, emitted_changed, IH.
    simpl. destruct (changed c); reflexivity.
  - destruct c as [s | ]; [| discriminate].
    simpl. rewrite IH. reflexivity.
Qed.

(** X1. The compaction keeps every changed block, in document order. *)
Theorem compact_keeps_changed (contents : list Node) :
  List.filter changed (compact contents) = List.filter changed contents.
Proof. rewrite compact_written. apply written_changed. Qed.

Lemma written_compacted st v f : Compacted (written st v f) v.
Proof.
  revert st. induction v as [| c v IH]; intros st; [constructor |].
  simpl written. destruct (isElement c).
  - destruct (emitted_cases st c (v ++ f))
      as [[_ ->] | (_ & _ & [-> | [_ ->]])]; simpl.
    + apply Compacted_drop, IH.
    + apply Compacted_keep, IH.
    + apply Compacted_break, Compacted_keep, IH.
  - apply Compacted_keep, IH.
Qed.

(** X2. The compaction only leaves blocks out and puts break markers in:
    it writes no other node and keeps the order of the content. *)
Theorem compact_is_compaction (contents : list Node) :
  Compacted (compact contents) contents.
Proof. rewrite compact_written. apply written_compacted. Qed.

Lemma no_changed_sibling (l : list Node) :
  (forall n, In n l -> changed n = false) ->
  changedParagraph (List.find isElement l) = false.
Proof.
  intros Hun. unfold changedParagraph.
  destruct (List.find isElement l) as [n |] eqn:En; [| reflexivity].
  apply find_some in En as [Hin _].
  unfold changed in Hun. rewrite (Hun _ Hin). apply andb_false_r.
Qed.

Lemma no_element_sibling (l : list Node) :
  (forall n, In n l -> isElement n = false) ->
  previousElementSibling l = None.
Proof.
  intros Hno. unfold previousElementSibling.
  destruct (List.find isElement (rev l)) as [n |] eqn:En; [| reflexivity].
  apply find_some in En as [Hin Hel].
  apply in_rev in Hin. rewrite (Hno _ Hin) in Hel. discriminate.
Qed.

Lemma written_nothing_changed v st f :
  (forall n, In n (v ++ f) -> changed n = false) ->
  (forall n, In n (live st) -> isElement n = false) ->
  written st v f = List.filter (fun n => negb (isElement n)) v.
Proof.
  revert st. induction v as [| c v IH]; intros st Hun Hlive; [reflexivity |].
  simpl. destruct (isElement c) eqn:Ec; simpl.
  - assert (Hremove : decide_action (live st) c (v ++ f) = Remove).
    { rewrite decide_action_unchanged by (apply Hun; left; reflexivity).
      unfold nextElementSibling.
      rewrite (no_changed_sibling (v ++ f))
        by (intros n Hn; apply Hun; right; exact Hn).
      rewrite (no_element_sibling _ Hlive). simpl.
      match goal with
      | |- (if ?b then _ else _) = _ => destruct b; reflexivity
      end. }
    unfold emitted. rewrite Hremove. simpl.
    apply IH.
    + intros n Hn. apply Hun. right. exact Hn.
    + unfold visit. rewrite Hremove. exact Hlive.
  - f_equal. apply IH.
    + intros n Hn. apply Hun. right. exact Hn.
    + simpl. intros n Hn. apply in_app_or in Hn as [Hn | [<- | []]]; auto.
Qed.

(** X3. When no block contains a diff marker, the compaction removes
    every element of the content and writes no break marker: only the
    nodes that are not elements stay. *)
Theorem compact_nothing_changed (contents : list Node) :
  (forall n, In n contents -> changed n = false) ->
  compact contents = List.filter (fun n => negb (isElement n)) contents.
Proof.
  intros Hun. rewrite compact_written.
  apply written_nothing_changed.
  - rewrite app_nil_r. exact Hun.
  - intros n [].
Qed.

Lemma written_all_changed v st f :
  (forall n, In n v -> isElement n = true -> changed n = true) ->
  previousNodeRemoved st = false ->
  written st v f = v.
Proof.
  revert st. induction v as [| c v IH]; intros st Hall Hflag; [reflexivity |].
  simpl. destruct (isElement c) eqn:Ec.
  - assert (Hkeep : decide_action (live st) c (v ++ f) = KeepChanged).
    { apply decide_action_changed. apply Hall; [left; reflexivity | exact Ec]. }
    unfold emitted. rewrite Hkeep, Hflag. simpl. f_equal.
    apply IH.
    + intros n Hn. apply Hall. right. exact Hn.
    + unfold visit. rewrite Hkeep. reflexivity.
  - f_equal. apply IH.
    + intros n Hn. apply Hall. right. exact Hn.
    + exact Hflag.
Qed.

(** X4. When every element of the content contains a diff marker, the
    compaction changes nothing: no block is removed and no break marker
    is written. *)
Theorem compact_all_changed (contents : list Node) :
  (forall n, In n contents -> isElement n = true -> changed n = true) ->
  compact contents = contents.
Proof.
  intros Hall. rewrite compact_written.
  apply written_all_changed; [exact Hall | reflexivity].
Qed.

(** X5. Break markers stand between blocks only: the first element of the
    compacted content is never a break marker, the content never ends
    with one, and two break markers never follow each other. *)
Theorem compact_breaks_between_blocks (contents : list Node) :
  List.find isElement (compact contents) <> Some br /\
  (forall o1, compact contents <> o1 ++ [br]) /\
  (forall o1 o2, compact contents <> o1 ++ br :: br :: o2).
Proof.
  split; [apply compact_no_leading_break |].
  split; apply compact_no_adjacent_breaks.
Qed.

End CompactionMore.

Section CompactionMoreExamples.
Import Dom DocumentHelper Fixtures.

Lemma compact_nothing_changed_witness :
  compact [pClosing; Text "between"; hHeading] = [Text "between"].
Proof.
  apply (compact_nothing_changed [pClosing; Text "between"; hHeading]).
  intros n [<- | [<- | [<- | []]]]; reflexivity.
Defined.

Lemma compact_all_changed_witness :
  compact [pChanged; ulChanged] = [pChanged; ulChanged].
Proof.
  apply (compact_all_changed [pChanged; ulChanged]).
  intros n [<- | [<- | []]] _; reflexivity.
Defined.

End CompactionMoreExamples.

Section BreakRule.
Import Dom DocumentHelper.

Lemma visit_clipped_flag st c f :
  previousDiffClipped (visit st c f) = previousDiffClipped st || changed c.
Proof.
  unfold visit.
  destruct (decide_action (live st) c f) eqn:Ea; simpl.
  - apply decide_action_changed in Ea. rewrite Ea, orb_true_r. reflexivity.
  - assert (Hc : changed c = false).
    { destruct (changed c) eqn:Ec; [| reflexivity].
      apply (decide_action_changed (live st) c f) in Ec. congruence. }
    rewrite Hc, orb_false_r. reflexivity.
  - assert (Hc : changed c = false).
    { destruct (changed c) eqn:Ec; [| reflexivity].
      apply (decide_action_changed (live st) c f) in Ec. congruence. }
    rewrite Hc, orb_false_r. reflexivity.
  - rewrite (removed_unchanged _ _ _ Ea), orb_false_r. reflexivity.
Qed.

Lemma run_clipped_flag st v f :
  previousDiffClipped (run st v f) = previousDiffClipped st || existsb changed v.
Proof.
  revert st. induction v as [| c v IH]; intros st; simpl.
  - rewrite orb_false_r. reflexivity.
  - destruct (isElement c) eqn:Ec.
    + rewrite IH, visit_clipped_flag, orb_assoc. reflexivity.
    + destruct c as [s |]; [| discriminate].
      rewrite IH. reflexivity.
Qed.

Lemma run_texts_flag st texts f :
  forallb (fun n => negb (isElement n)) texts = true ->
  previousNodeRemoved (run st texts f) = previousNodeRemoved st.
Proof.
  revert st. induction texts as [| x texts IH]; simpl; intros st Htexts;
    [reflexivity |].
  apply andb_prop in Htexts as [Hx Htexts].
  destruct (isElement x); [discriminate |].
  rewrite (IH _ Htexts). reflexivity.
Qed.

Lemma visit_removed_flag st c f :
  previousNodeRemoved (visit st c f) = negb (retained (decide_action (live st) c f)).
Proof. unfold visit. destruct (decide_action (live st) c f); reflexivity. Qed.

(** X6. When a break marker is written.  Before a changed block: exactly
    when the element before it was removed and some block before it is
    changed.  Before a paragraph kept as leading context: exactly when
    some block before it is changed, whether or not anything was removed.
    Before a paragraph kept as trailing context: never.  The element
    before a block counts as removed exactly when the loop did not keep
    it. *)
Theorem break_marker_rule (preceding : list Node) (c : Node)
        (following : list Node) :
  (changed c = true ->
   emitted (reach preceding c following) c following =
     (if previousNodeRemoved (reach preceding c following)
         && existsb changed preceding
      then [br] else []) ++ [c]) /\
  (fate preceding c following = KeepLeading ->
   emitted (reach preceding c following) c following =
     (if existsb changed preceding then [br] else []) ++ [c]) /\
  (fate preceding c following = KeepTrailing ->
   emitted (reach preceding c following) c following = [c]) /\
  (forall before m texts,
      preceding = before ++ m :: texts ->
      isElement m = true ->
      forallb (fun n => negb (isElement n)) texts = true ->
      previousNodeRemoved (reach preceding c following) =
        negb (retained (fate before m (texts ++ c :: following)))) /\
  (forallb (fun n => negb (isElement n)) preceding = true ->
   previousNodeRemoved (reach preceding c following) = false).
Proof.
  assert (Hclipped : previousDiffClipped (reach preceding c following)
                     = existsb changed preceding).
  { unfold reach. rewrite run_clipped_flag. reflexivity. }
  unfold fate, emitted.
  split; [| split; [| split; [| split]]].
  - intros Hc. apply (decide_action_changed
                        (live (reach preceding c following)) c following) in Hc.
    rewrite Hc, Hclipped. reflexivity.
  - intros ->. rewrite Hclipped. reflexivity.
  - intros ->. reflexivity.
  - intros before m texts -> Hm Htexts. unfold reach.
    rewrite run_app. simpl. rewrite Hm.
    rewrite (run_texts_flag _ _ _ Htexts), visit_removed_flag.
    reflexivity.
  - intros Htexts. unfold reach. rewrite (run_texts_flag _ _ _ Htexts).
    reflexivity.
Qed.

End BreakRule.

(* ===================================================================== *)
(** ** More on DocumentHelper                                             *)
(* ===================================================================== *)

Section DocumentHelperMore.
Import Models Js DocumentHelper.
Context `{E : Engine}.
Context {F : @Failures E}.

(** X7. When rendering the containing document throws, [toHTML] still
    returns a page, but without article, title, styles and content: the
    body is the text that the two undefined values leave in the template
    string, whatever the document holds. *)
Theorem toHTML_render_failure (document : DocumentOrRevision)
        (options : option HTMLOptions) :
  renderStyles (isRTL (titleOf document)) (isCentered options)
               (withoutStyles options) = None ->
  toHTML document options =
    "<!DOCTYPE html><html><head></head><body>"
    +:+ (if withoutStyles options then "undefined" else "undefinedundefined")
    +:+ "</body></html>".
Proof.
  intros Hst. unfold toHTML, toHTMLDocument, renderShell. rewrite Hst.
  destruct (withoutStyles options); reflexivity.
Qed.

Lemma articleContent_throws (d : Dom.Document) (e : Exn) :
  articleContent d = Throw e -> e = noArticle.
Proof.
  unfold articleContent.
  destruct (Dom.query (Dom.hasTag "article") d); [discriminate |].
  intros [= <-]. reflexivity.
Qed.

(** X8. When rendering the styles of the before document or of the after
    revision throws, [diff] and [toEmailDiff] throw a TypeError: no
    article is found to read the content from. *)
Theorem diff_throws_when_render_fails (before : DocumentOrRevision)
        (after : Revision) (options : option HTMLOptions) :
  renderStyles (isRTL (titleOf before)) (isCentered options)
               (withoutStyles options) = None \/
  renderStyles (isRTL (rev_title after)) (isCentered options)
               (withoutStyles options) = None ->
  diff (Some before) after options = Throw noArticle /\
  toEmailDiff (Some before) after options = Throw noArticle.
Proof.
  intros Hfail.
  assert (Hdoc : diffDocument (Some before) after options = Throw noArticle).
  { unfold diffDocument. destruct Hfail as [Hb | Ha].
    - rewrite (toHTMLDocument_failed before options Hb). reflexivity.
    - rewrite (toHTMLDocument_failed (OfRevision after) options Ha).
      destruct (articleContent (toHTMLDocument before options)) as [bc | e] eqn:Eb;
        simpl; [reflexivity |].
      rewrite (articleContent_throws _ _ Eb). reflexivity. }
  unfold diff, toEmailDiff. rewrite Hdoc. split; reflexivity.
Qed.

Lemma string_app_assoc (a b c : string) : (a +:+ b) +:+ c = a +:+ (b +:+ c).
Proof.
  induction a as [| x a IH]; [reflexivity |].
  change (String x ((a +:+ b) +:+ c) = String x (a +:+ (b +:+ c))).
  rewrite IH. reflexivity.
Qed.

(** X10. Applying Markdown twice: an append after a first call leaves the
    text that one call with the two texts joined leaves, a replacement
    leaves its own text, and for a document without replicated state the
    two calls give the same document as the single one.  The id, the
    title and the version are never touched. *)
Theorem applyMarkdownToDocument_composes (document : Document)
        (t1 t2 : string) (append : bool) :
  let once := fst (applyMarkdownToDocument document t1 append) in
  Models.text (fst (applyMarkdownToDocument once t2 true)) =
    Models.text (fst (applyMarkdownToDocument document (t1 +:+ t2) append)) /\
  Models.text (fst (applyMarkdownToDocument once t2 false)) = t2 /\
  (Models.state document = None ->
   applyMarkdownToDocument once t2 true =
     applyMarkdownToDocument document (t1 +:+ t2) append) /\
  Models.id once = Models.id document /\
  Models.title once = Models.title document /\
  Models.version once = Models.version document.
Proof.
  cbv zeta. split; [| split; [| split]].
  - rewrite !applyMarkdownToDocument_text.
    destruct append; [apply string_app_assoc | reflexivity].
  - rewrite applyMarkdownToDocument_text. reflexivity.
  - intros Hnone.
    rewrite (applyMarkdownToDocument_stateless document t1 append Hnone).
    rewrite (applyMarkdownToDocument_stateless document (t1 +:+ t2) append Hnone).
    rewrite applyMarkdownToDocument_stateless by reflexivity.
    cbn [fst Models.id Models.title Models.text Models.version Models.changed].
    destruct append; [rewrite string_app_assoc |]; reflexivity.
  - apply applyMarkdownToDocument_frame.
Qed.

End DocumentHelperMore.

Section DocumentHelperMoreExamples.
Import Models Js DocumentHelper Fixtures.

Lemma toHTML_render_failure_witness :
  @toHTML brokenEngine (OfRevision beforeHeading) None =
    "<!DOCTYPE html><html><head></head><body>undefinedundefined</body></html>".
Proof.
  apply (@toHTML_render_failure brokenEngine (OfRevision beforeHeading) None).
  reflexivity.
Defined.

Lemma diff_throws_when_render_fails_witness :
  @toEmailDiff brokenEngine (Some (OfRevision beforeHeading)) afterHeading None
  = Throw noArticle.
Proof.
  apply (@diff_throws_when_render_fails brokenEngine
           (OfRevision beforeHeading) afterHeading None).
  left. reflexivity.
Defined.

(** The witness of X9, [toHTMLDocument_rendered]. *)
Lemma toHTMLDocument_rendered_witness :
  @articleContent (@toHTMLDocument engine (OfRevision beforeTitle) None) =
    Return [Dom.Element "h1" [("dir", "ltr")] [Dom.Text "Title"];
            Dom.Element "div" [("dir", "ltr"); ("class", "sc-editor")]
              [Dom.Element "div" [("id", "content"); ("class", "ProseMirror")]
                 [Dom.Element "p" [] [Dom.Text "Body"]]]].
Proof.
  apply (@toHTMLDocument_rendered engine (OfRevision beforeTitle) None
           (styles false false false)
           [Dom.Element "style" [] [Dom.Text ".ProseMirror{direction:ltr}"]]);
    reflexivity.
Defined.

Lemma applyMarkdownToDocument_composes_witness :
  @applyMarkdownToDocument engine (noFailures engine)
     (fst (@applyMarkdownToDocument engine (noFailures engine)
             (document "Title" "One" None) " two" true))
     " three" true
  = @applyMarkdownToDocument engine (noFailures engine)
      (document "Title" "One" None) " two three" true.
Proof.
  apply (proj1 (proj2 (proj2
           (@applyMarkdownToDocument_composes engine (noFailures engine)
              (document "Title" "One" None) " two" " three" true)))).
  reflexivity.
Defined.

End DocumentHelperMoreExamples.

(* ===================================================================== *)
(** ** More on PersistenceExtension                                       *)
(* ===================================================================== *)

Section PersistenceMore.
Import Models Js PersistenceExtension.
Context `{E : Engine}.
Variable updater : option string -> YDoc -> UserId -> World -> World * Outcome unit.

Lemma set_add_member (u u' : UserId) (s : list UserId) :
  u' ∈ set_add u s <-> u' = u \/ u' ∈ s.
Proof.
  unfold set_add. destruct (bool_decide (u ∈ s)) eqn:Ein.
  - apply bool_decide_eq_true in Ein. split; [auto |].
    intros [-> | H]; assumption.
  - rewrite elem_of_app, list_elem_of_singleton. tauto.
Qed.

Lemma set_add_NoDup (u : UserId) (s : list UserId) :
  NoDup s -> NoDup (set_add u s).
Proof.
  intros Hs. unfold set_add. destruct (bool_decide (u ∈ s)) eqn:Ein; [exact Hs |].
  apply bool_decide_eq_false in Ein.
  apply NoDup_app. split; [exact Hs |]. split.
  - intros x Hx Hx'. apply list_elem_of_singleton in Hx' as ->. contradiction.
  - apply NoDup_singleton.
Qed.

(** X11. [onChange] records each editor of a document name once: a change
    by an editor who is already in the set leaves the map as it is; the
    set holds the editor and those it held before, without duplicates;
    the sets of other document names are not touched. *)
Theorem onChange_records_once (collaborators : gmap string (list UserId))
        (user : UserId) (documentName : string) :
  (forall editors, collaborators !! documentName = Some editors ->
                   user ∈ editors ->
                   onChange collaborators user documentName = collaborators) /\
  (forall other,
      other ∈ default [] (onChange collaborators user documentName !! documentName)
      <-> other = user \/ other ∈ default [] (collaborators !! documentName)) /\
  (NoDup (default [] (collaborators !! documentName)) ->
   NoDup (default [] (onChange collaborators user documentName !! documentName))) /\
  (forall name, name <> documentName ->
                onChange collaborators user documentName !! name
                = collaborators !! name).
Proof.
  unfold onChange. split; [| split; [| split]].
  - intros editors Hsome Hin. rewrite Hsome. simpl. unfold set_add.
    rewrite (bool_decide_eq_true_2 _ Hin). apply insert_id. exact Hsome.
  - intros other. rewrite lookup_insert_eq. simpl. apply set_add_member.
  - intros Hnodup. rewrite lookup_insert_eq. simpl. apply set_add_NoDup, Hnodup.
  - intros name Hne. apply lookup_insert_ne. congruence.
Qed.

Lemma pop_snoc (s : list UserId) (u : UserId) : pop (s ++ [u]) = u.
Proof. unfold pop. rewrite last_snoc. reflexivity. Qed.

Lemma onStoreDocument_handOff (collaborators : gmap string (list UserId))
      (document : YDoc) (user : UserId) (documentName : string) (w : World) :
  onStoreDocument updater collaborators document user documentName w =
    (delete documentName collaborators,
     handOff updater documentName document
             (pop (match collaborators !! documentName with
                   | Some s => s
                   | None => [user]
                   end)) user w,
     Return tt).
Proof.
  unfold onStoreDocument, handOff.
  destruct (updater _ _ _ _) as [w1 [[] | err]]; reflexivity.
Qed.

(** X12. A change followed by a store: the store hands the document to
    the persistence with the editor of the change as author when that
    editor was not yet in the set, and with the same author as without
    the change when the editor was in the set already; so the author is
    the editor who joined last, not the one who changed last.  The map is
    left without a set for the document name. *)
Theorem store_after_change (collaborators : gmap string (list UserId))
        (editor : UserId) (document : YDoc) (user : UserId)
        (documentName : string) (w : World) :
  onStoreDocument updater (onChange collaborators editor documentName)
                  document user documentName w =
    (delete documentName collaborators,
     handOff updater documentName document
             (match collaborators !! documentName with
              | Some editors =>
                  if bool_decide (editor ∈ editors) then pop editors else editor
              | None => editor
              end) user w,
     Return tt).
Proof.
  rewrite onStoreDocument_handOff. unfold onChange.
  rewrite lookup_insert_eq, delete_insert_eq. f_equal. f_equal. f_equal.
  unfold set_add.
  destruct (collaborators !! documentName) as [editors |]; simpl.
  - destruct (bool_decide (editor ∈ editors)); [reflexivity | apply pop_snoc].
  - reflexivity.
Qed.

(** X13. Two stores in a row: the first takes the set of editors, so the
    second, with no change in between, attributes the document to the
    user of the connection that triggers it. *)
Theorem store_twice (collaborators : gmap string (list UserId))
        (document1 document2 : YDoc) (user1 user2 : UserId)
        (documentName : string) (w : World) :
  let first := onStoreDocument updater collaborators document1 user1
                               documentName w in
  onStoreDocument updater (fst (fst first)) document2 user2 documentName
                  (snd (fst first)) =
    (delete documentName collaborators,
     handOff updater documentName document2 user2 user2 (snd (fst first)),
     Return tt).
Proof.
  cbv zeta. rewrite (onStoreDocument_handOff collaborators). simpl.
  rewrite onStoreDocument_handOff.
  rewrite lookup_delete_eq, delete_delete_eq. reflexivity.
Qed.

(** X14. [onLoadDocument] for a document that is not there: when the
    structure is empty and the name holds no id after the dot or no row
    has the id, the call throws, the transaction is rolled back, and the
    rows and the log are as they were. *)
Theorem onLoadDocument_missing (documentName : string) (document : YDoc)
        (w : World) :
  Y_isEmpty document "default" = true ->
  match documentIdOf documentName with
  | Some i => db w !! i = None
  | None => True
  end ->
  exists err,
    onLoadDocument documentName document w =
      ({| db := db w;
          events := events w ++ [Begin;
                                 FindOne (documentIdOf documentName)
                                         (Some LOCK_UPDATE);
                                 Rollback];
          logs := logs w |},
       Throw err) /\
    err = match documentIdOf documentName with
          | Some _ => EmptyResultError
          | None => Error "WHERE parameter id has invalid undefined value"
          end.
Proof.
  intros Hempty Hrow. unfold onLoadDocument. rewrite Hempty. simpl.
  unfold transaction, findOne. simpl.
  destruct (documentIdOf documentName) as [i |]; simpl.
  - rewrite Hrow. eexists; split; [| reflexivity].
    unfold emit. simpl. rewrite <- !app_assoc. reflexivity.
  - eexists; split; [| reflexivity].
    unfold emit. simpl. rewrite <- !app_assoc. reflexivity.
Qed.

(** X15. Loading twice with an empty structure: the second load finds the
    state that the first one derived from the Markdown text and decodes
    it; it issues no update and leaves the rows as the first load left
    them. *)
Theorem onLoadDocument_twice (documentName : string) (document : YDoc)
        (w : World) (i : string) (row : Document) :
  Y_isEmpty document "default" = true ->
  documentIdOf documentName = Some i ->
  db w !! i = Some row ->
  Models.id row = i ->
  Models.state row = None ->
  let first := onLoadDocument documentName document w in
  let second := onLoadDocument documentName document (fst first) in
  snd second =
    Return (Some (Y_applyUpdate Y_Doc
                    (Y_encodeStateAsUpdate
                       (markdownToYDoc (Models.text row) "default")))) /\
  db (fst second) = db (fst first) /\
  events (fst second) =
    events (fst first) ++ [Begin; FindOne (Some i) (Some LOCK_UPDATE); Commit].
Proof.
  intros Hempty Hid Hrow Hkey Hstate. subst i. cbv zeta.
  unfold onLoadDocument. rewrite Hempty, Hid. simpl.
  unfold transaction, findOne. simpl. rewrite Hrow, Hstate. simpl.
  rewrite lookup_insert_eq. simpl.
  repeat split. rewrite <- !app_assoc. reflexivity.
Qed.

End PersistenceMore.

Section PersistenceMoreExamples.
Import Models Js PersistenceExtension Fixtures.

Lemma onLoadDocument_missing_witness :
  snd (@onLoadDocument engine "document.d2" EmptyString world)
  = Throw EmptyResultError.
Proof.
  destruct (@onLoadDocument_missing engine "document.d2" EmptyString world
              eq_refl eq_refl) as (err & -> & ->).
  reflexivity.
Defined.

Lemma onLoadDocument_twice_witness :
  snd (@onLoadDocument engine "document.d1" EmptyString
         (fst (@onLoadDocument engine "document.d1" EmptyString world)))
  = Return (Some "Body").
Proof.
  apply (proj1 (@onLoadDocument_twice engine "document.d1" EmptyString world
                  "d1" (document "Title" "Body" None)
                  eq_refl eq_refl eq_refl eq_refl eq_refl)).
Defined.

End PersistenceMoreExamples.

(* ===================================================================== *)
(** ** More on BaseEmail and the document notification email              *)
(* ===================================================================== *)

Section BaseEmailMore.
Import Js BaseEmail.
Variables (T S Component : Type).
Variable to : T -> string.
Variable sendMailFails : Mail Component -> option Exn.
Variable updateFails : string -> option Exn.
Variable now : nat.

Local Abbreviation send := (send T S Component to sendMailFails updateFails now).
Local Abbreviation mailOf := (mailOf T S Component to).


End BaseEmailMore.

Section DocumentNotificationEmailFacts.
Import Js BaseEmail.
Variable documents : gmap string Models.Document.
Variable inlineCss : string -> Outcome string.
Variable url : Models.Document -> string.
Variable Component : Type.
Variable element :
  DocumentNotificationEmail.InputProps ->
  DocumentNotificationEmail.BeforeSend -> Component.
Variable noElement : Component.
Variable sendMailFails : Mail Component -> option Exn.
Variable updateFails : string -> option Exn.
Variable now : nat.

Local Abbreviation template :=
  (DocumentNotificationEmail.template documents inlineCss url Component
                                      element noElement).
Local Abbreviation sendNotification :=
  (BaseEmail.send DocumentNotificationEmail.InputProps
                  DocumentNotificationEmail.BeforeSend Component
                  DocumentNotificationEmail.to
                  sendMailFails updateFails now template).

(** X17. The notification email of a document that is no longer found is
    not sent: [send] returns, and no mail is handed over, no counter is
    incremented and no notification is stamped; the log gets one line. *)
Theorem notification_for_missing_document
        (props : DocumentNotificationEmail.InputProps)
        (metadata : option NotificationMetadata) (w : World Component) :
  documents !! DocumentNotificationEmail.documentId props = None ->
  snd (sendNotification props metadata w) = Return tt /\
  outbox (fst (sendNotification props metadata w)) = outbox w /\
  metrics (fst (sendNotification props metadata w)) = metrics w /\
  emailedAt (fst (sendNotification props metadata w)) = emailedAt w /\
  logs (fst (sendNotification props metadata w)) =
    logs w ++ [Info "email"
                 "Email DocumentNotificationEmail not sent due to beforeSend hook"].
Proof.
  intros Hnone. unfold BaseEmail.send, gather. simpl.
  unfold DocumentNotificationEmail.beforeSend. rewrite Hnone. simpl.
  repeat split.
Qed.

(** X18. The content of the notification is inlined only when there is
    some: with empty content the mail is built without a body and
    [inlineCss] plays no part; with content, a failure of [inlineCss] is
    thrown by [send] before anything is handed over, and it is not
    counted as a failed sending. *)
Theorem notification_content
        (props : DocumentNotificationEmail.InputProps)
        (metadata : option NotificationMetadata) (w : World Component)
        (d : Models.Document) :
  documents !! DocumentNotificationEmail.documentId props = Some d ->
  (DocumentNotificationEmail.content props = EmptyString ->
   sendNotification props metadata w =
     deliver _ _ _ DocumentNotificationEmail.to sendMailFails updateFails now
             template props metadata
             (props, Some {| DocumentNotificationEmail.document := d;
                             DocumentNotificationEmail.body := None |}) w) /\
  (forall err,
      DocumentNotificationEmail.content props <> EmptyString ->
      inlineCss (DocumentNotificationEmail.content props) = Throw err ->
      sendNotification props metadata w = (w, Throw err)) /\
  (forall inlined,
      DocumentNotificationEmail.content props <> EmptyString ->
      inlineCss (DocumentNotificationEmail.content props) = Return inlined ->
      sendNotification props metadata w =
        deliver _ _ _ DocumentNotificationEmail.to sendMailFails updateFails now
                template props metadata
                (props, Some {| DocumentNotificationEmail.document := d;
                                DocumentNotificationEmail.body := Some inlined |})
                w).
Proof.
  intros Hsome. unfold BaseEmail.send, gather. simpl.
  unfold DocumentNotificationEmail.beforeSend. rewrite Hsome.
  split; [| split].
  - intros ->. reflexivity.
  - intros err Hne Hthrow.
    destruct (DocumentNotificationEmail.content props) eqn:Ec; [contradiction |].
    simpl. rewrite Hthrow. reflexivity.
  - intros inlined Hne Hret.
    destruct (DocumentNotificationEmail.content props) eqn:Ec; [contradiction |].
    simpl. rewrite Hret. reflexivity.
Qed.

End DocumentNotificationEmailFacts.

Section DocumentNotificationEmailExamples.
Import Js BaseEmail Fixtures.

Lemma notification_for_missing_document_witness :
  outbox (fst (BaseEmail.send _ _ _ DocumentNotificationEmail.to
                 acceptAll acceptAll 0
                 (DocumentNotificationEmail.template
                    ∅ (fun css => Return css) (fun _ => "/doc/title") string
                    (fun _ _ => "element") "none")
                 notificationProps metadata mailbox)) = [].
Proof.
  apply (proj1 (proj2 (notification_for_missing_document
                  ∅ (fun css => Return css) (fun _ => "/doc/title") string
                  (fun _ _ => "element") "none" acceptAll acceptAll 0
                  notificationProps metadata mailbox (lookup_empty _)))).
Defined.

Lemma notification_content_witness :
  BaseEmail.send _ _ _ DocumentNotificationEmail.to acceptAll acceptAll 0
    (DocumentNotificationEmail.template
       {[ "d1" := document "Title" "Body" None ]}
       (fun _ => Throw (Rejected "inline-css")) (fun _ => "/doc/title") string
       (fun _ _ => "element") "none")
    notificationProps metadata mailbox
  = (mailbox, Throw (Rejected "inline-css")).
Proof.
  assert (Hrow : ({[ "d1" := document "Title" "Body" None ]}
                    : gmap string Models.Document)
                 !! DocumentNotificationEmail.documentId notificationProps
                 = Some (document "Title" "Body" None))
    by (vm_compute; reflexivity).
  apply (proj1 (proj2 (notification_content
                  {[ "d1" := document "Title" "Body" None ]}
                  (fun _ => Throw (Rejected "inline-css"))
                  (fun _ => "/doc/title") string
                  (fun _ _ => "element") "none" acceptAll acceptAll 0
                  notificationProps metadata mailbox
                  (document "Title" "Body" None) Hrow))
               (Rejected "inline-css")).
  - discriminate.
  - reflexivity.
Defined.

End DocumentNotificationEmailExamples.

(* ===================================================================== *)
(** ** The User model and the team policy                                 *)
(* ===================================================================== *)

Section UserFacts.
Import Js UserModel.

Lemma flagKey_inj (f g : UserFlag) : flagKey f = flagKey g -> f = g.
Proof. destruct f, g; simpl; intros H; first [reflexivity | discriminate H]. Qed.

(** X19. A flag that was set reads back as 1 or 0; the other flags read as
    before; and setting the same value again changes nothing, not even
    the list of changed fields. *)
Theorem setFlag_getFlag (flag other : UserFlag) (value : bool) (u : User) :
  getFlag flag (setFlag flag value u) = (if value then 1 else 0)%Z /\
  (other <> flag -> getFlag other (setFlag flag value u) = getFlag other u) /\
  setFlag flag value (setFlag flag value u) = setFlag flag value u.
Proof.
  assert (Hother : forall fl : gmap string Z,
             default 0%Z (default ∅ (flags u) !! flagKey other) = getFlag other u).
  { intros _. unfold getFlag. destruct (flags u); [reflexivity |].
    cbn. rewrite lookup_empty. reflexivity. }
  unfold setFlag.
  set (fl := default ∅ (flags u)) in *.
  set (binary := (if value then 1 else 0)%Z).
  destruct (bool_decide (fl !! flagKey flag = Some binary)) eqn:Eset.
  - apply bool_decide_eq_true in Eset.
    unfold getFlag. cbn [flags withFlags default].
    split; [rewrite Eset; reflexivity |]. split.
    + intros _. apply (Hother ∅).
    + rewrite (bool_decide_eq_true_2 _ Eset). reflexivity.
  - unfold getFlag. cbn [flags withFlags default].
    split; [rewrite lookup_insert_eq; reflexivity |]. split.
    + intros Hne. rewrite lookup_insert_ne
        by (intros Heq; apply Hne; symmetry; apply flagKey_inj; exact Heq).
      apply (Hother ∅).
    + rewrite bool_decide_eq_true_2 by apply lookup_insert_eq. reflexivity.
Qed.

(** X20. Incrementing a flag adds the amount to what the flag reads, a
    flag never set counting as 0, and leaves the other flags alone. *)
Theorem incrementFlag_getFlag (flag other : UserFlag) (value : Z) (u : User) :
  getFlag flag (incrementFlag flag value u) = (getFlag flag u + value)%Z /\
  (other <> flag ->
   getFlag other (incrementFlag flag value u) = getFlag other u).
Proof.
  unfold incrementFlag, getFlag. simpl. rewrite lookup_insert_eq. simpl.
  split.
  - destruct (flags u); [reflexivity |]. simpl. rewrite lookup_empty. reflexivity.
  - intros Hne. rewrite lookup_insert_ne
      by (intros Heq; apply Hne; symmetry; apply flagKey_inj; exact Heq).
    destruct (flags u); [reflexivity |]. simpl. rewrite lookup_empty. reflexivity.
Qed.

(** X21. A preference set to true reads back as true; a preference set to
    false reads back as undefined, like one that was never set; the other
    preferences read as before. *)
Theorem setPreference_getPreference (preference other : string) (value : bool)
        (u : User) :
  getPreference preference (setPreference preference value u)
  = (if value then Some true else None) /\
  (other <> preference ->
   getPreference other (setPreference preference value u)
   = getPreference other u).
Proof.
  unfold setPreference, getPreference. simpl. rewrite lookup_insert_eq.
  split; [destruct value; reflexivity |].
  intros Hne. rewrite lookup_insert_ne by congruence.
  destruct (preferences u); [reflexivity |]. simpl. rewrite lookup_empty.
  reflexivity.
Qed.

Lemma updateRole_other this admin viewer rows r :
  In r rows -> String.eqb (id r) (id this) = false ->
  In r (updateRole this admin viewer rows).
Proof.
  intros Hin Hne. unfold updateRole. apply in_map_iff.
  exists r. rewrite Hne. auto.
Qed.

Lemma updateRole_self this admin viewer rows r :
  In r (updateRole this admin viewer rows) -> id r = id this ->
  isAdmin r = admin /\ isViewer r = viewer.
Proof.
  unfold updateRole. intros Hin Hid.
  apply in_map_iff in Hin as (r0 & <- & _).
  destruct (String.eqb (id r0) (id this)) eqn:E; simpl; [auto |].
  apply String.eqb_neq in E. contradiction.
Qed.

Lemma isOtherAdmin_other this r :
  isOtherAdmin this r = true -> String.eqb (id r) (id this) = false.
Proof.
  unfold isOtherAdmin. intros H.
  apply andb_prop in H as [H _]. apply andb_prop in H as [_ H].
  apply negb_true_iff in H. exact H.
Qed.

Lemma demote_role (this : User) (to : UserRole) (db : Tables) (r : User) :
  snd (demote this to db) = Return tt ->
  In r (users (fst (demote this to db))) -> id r = id this ->
  isAdmin r = false /\
  isViewer r = match to with Viewer => true | Member => false end.
Proof.
  unfold demote.
  destruct (Nat.leb 1 (length (List.filter (isOtherAdmin this) (users db))));
    [| discriminate].
  destruct to; simpl; intros _ Hin Hid; exact (updateRole_self _ _ _ _ _ Hin Hid).
Qed.

(** X22. [demote] never takes the last admin away.  When it returns,
    another admin of the team that is not deleted is still in the table,
    the demoted user is no admin and is a viewer exactly when demoted to
    viewer; a demotion to viewer sets every collection membership of the
    user to read and a demotion to member leaves the memberships alone.
    When it throws, nothing is changed and no other admin is there; and
    when no other admin is there, it does throw, with the validation error
    "At least one admin is required", and changes nothing. *)
Theorem demote_keeps_an_admin (this : User) (to : UserRole) (db : Tables) :
  (snd (demote this to db) = Return tt ->
   (exists r, In r (users (fst (demote this to db))) /\
              isOtherAdmin this r = true) /\
   (forall r, In r (users (fst (demote this to db))) -> id r = id this ->
              isAdmin r = false /\
              isViewer r = match to with Viewer => true | Member => false end) /\
   match to with
   | Viewer =>
       forall m, In m (collectionUsers (fst (demote this to db))) ->
                 cu_userId m = id this -> cu_permission m = Read
   | Member =>
       collectionUsers (fst (demote this to db)) = collectionUsers db
   end) /\
  (forall err, snd (demote this to db) = Throw err ->
               fst (demote this to db) = db /\
               forall r, In r (users db) -> isOtherAdmin this r = false) /\
  ((forall r, In r (users db) -> isOtherAdmin this r = false) ->
   demote this to db =
     (db, Throw (ValidationError "At least one admin is required"))).
Proof.
  unfold demote.
  destruct (List.filter (isOtherAdmin this) (users db)) as [| r0 rest] eqn:Ef; simpl.
  - split; [discriminate |]. split; [| reflexivity].
    intros err _. split; [reflexivity |].
    intros r Hin. destruct (isOtherAdmin this r) eqn:Er; [| reflexivity].
    assert (Hr : In r (List.filter (isOtherAdmin this) (users db)))
      by (apply filter_In; auto).
    rewrite Ef in Hr. contradiction.
  - assert (Hr0 : In r0 (users db) /\ isOtherAdmin this r0 = true).
    { apply filter_In. rewrite Ef. left. reflexivity. }
    destruct Hr0 as [Hin Hadmin].
    split; [| split; [destruct to; discriminate |]].
    2: { intros Hnone. rewrite (Hnone r0 Hin) in Hadmin. discriminate. }
    intros _. destruct to; simpl.
    + split; [| split; [| reflexivity]].
      * exists r0. split; [| exact Hadmin].
        apply updateRole_other; [exact Hin | apply isOtherAdmin_other, Hadmin].
      * intros r Hr Hid. exact (updateRole_self _ _ _ _ _ Hr Hid).
    + split; [| split].
      * exists r0. split; [| exact Hadmin].
        apply updateRole_other; [exact Hin | apply isOtherAdmin_other, Hadmin].
      * intros r Hr Hid. exact (updateRole_self _ _ _ _ _ Hr Hid).
      * intros m Hm Hid. unfold restrictMemberships in Hm.
        apply in_map_iff in Hm as (m0 & <- & _).
        destruct (String.eqb (cu_userId m0) (id this)) eqn:E; [reflexivity |].
        apply String.eqb_neq in E. contradiction.
Qed.

Lemma updateRole_exclusive this admin viewer rows :
  admin && viewer = false ->
  rolesExclusive rows = true ->
  rolesExclusive (updateRole this admin viewer rows) = true.
Proof.
  intros Hrole Hrows. unfold rolesExclusive in *.
  apply forallb_forall. intros r Hin. unfold updateRole in Hin.
  apply in_map_iff in Hin as (r0 & <- & Hin0).
  destruct (String.eqb (id r0) (id this)).
  - simpl. rewrite Hrole. reflexivity.
  - exact (proj1 (forallb_forall _ _) Hrows _ Hin0).
Qed.

(** X23. [promote] and [demote] keep the roles apart: when no user of the
    table is admin and viewer at once, none is afterwards. *)
Theorem roles_stay_exclusive (this : User) (to : UserRole) (db : Tables) :
  rolesExclusive (users db) = true ->
  rolesExclusive (users (promote this db)) = true /\
  rolesExclusive (users (fst (demote this to db))) = true.
Proof.
  intros Hrows. split.
  - apply updateRole_exclusive; [reflexivity | exact Hrows].
  - unfold demote.
    destruct (Nat.leb 1 (length (List.filter (isOtherAdmin this) (users db))));
      [| exact Hrows].
    destruct to; simpl; apply updateRole_exclusive; auto.
Qed.

(** X24. The team policy: sharing and updating a team are granted only to
    a user who may read it, that is a user of that team, and never to a
    viewer; updating needs an admin; without a team nothing is granted. *)
Theorem team_policy_needs_membership (user : User) (team : option TeamPolicy.Team) :
  (TeamPolicy.share user team = true ->
   TeamPolicy.read user team = true /\ isViewer user = false) /\
  (TeamPolicy.update user team = true ->
   TeamPolicy.read user team = true /\ isViewer user = false /\
   isAdmin user = true) /\
  (TeamPolicy.read user team = false ->
   TeamPolicy.share user team = false /\ TeamPolicy.update user team = false) /\
  (team = None ->
   TeamPolicy.read user team = false /\ TeamPolicy.share user team = false /\
   TeamPolicy.update user team = false).
Proof.
  unfold TeamPolicy.share, TeamPolicy.update, TeamPolicy.read.
  destruct team as [t |].
  - destruct (isViewer user), (String.eqb (teamId user) (TeamPolicy.team_id t));
      simpl; repeat split; intros; try discriminate; auto.
  - repeat split; intros; try discriminate; auto.
Qed.

(** X25. After a demotion the user cannot update or manage any team, and
    after a demotion to viewer cannot share one either. *)
Theorem demoted_user_cannot_manage (this : User) (to : UserRole) (db : Tables)
        (r : User) (team : option TeamPolicy.Team) :
  snd (demote this to db) = Return tt ->
  In r (users (fst (demote this to db))) ->
  id r = id this ->
  TeamPolicy.update r team = false /\
  (to = Viewer -> TeamPolicy.share r team = false).
Proof.
  intros Hret Hin Hid.
  destruct (demote_role this to db r Hret Hin Hid) as [Hadmin Hviewer].
  unfold TeamPolicy.update, TeamPolicy.share.
  destruct team as [t |]; [| auto].
  rewrite Hadmin. split.
  - destruct (isViewer r || _); reflexivity.
  - intros ->. rewrite Hviewer. reflexivity.
Qed.

End UserFacts.

Section UserExamples.
Import Js UserModel Fixtures.

Lemma demote_keeps_an_admin_witness :
  (exists r, In r (users (fst (demote (account "bob" true false) Viewer tables))) /\
             isOtherAdmin (account "bob" true false) r = true) /\
  demote (account "alice" true false) Member soleAdmin =
    (soleAdmin, Throw (ValidationError "At least one admin is required")).
Proof.
  split.
  - exact (proj1 (proj1 (demote_keeps_an_admin (account "bob" true false)
                           Viewer tables) eq_refl)).
  - apply (proj2 (proj2 (demote_keeps_an_admin (account "alice" true false)
                           Member soleAdmin))).
    intros r Hin. simpl in Hin.
    destruct Hin as [<- | [<- | []]]; reflexivity.
Defined.

Lemma roles_stay_exclusive_witness :
  rolesExclusive (users (fst (demote (account "bob" true false) Viewer tables)))
  = true.
Proof.
  exact (proj2 (roles_stay_exclusive (account "bob" true false) Viewer tables
                  eq_refl)).
Defined.

Lemma team_policy_needs_membership_witness :
  TeamPolicy.read (account "alice" true false)
                  (Some {| TeamPolicy.team_id := "team1";
                           TeamPolicy.sharing := true |}) = true.
Proof.
  apply (proj1 (proj1 (team_policy_needs_membership
                         (account "alice" true false)
                         (Some {| TeamPolicy.team_id := "team1";
                                  TeamPolicy.sharing := true |}))
                      eq_refl)).
Defined.

Lemma demoted_user_cannot_manage_witness :
  TeamPolicy.update (account "bob" false true)
                    (Some {| TeamPolicy.team_id := "team1";
                             TeamPolicy.sharing := true |}) = false.
Proof.
  apply (proj1 (demoted_user_cannot_manage
                  (account "bob" true false) Viewer tables
                  (account "bob" false true)
                  (Some {| TeamPolicy.team_id := "team1";
                           TeamPolicy.sharing := true |})
                  eq_refl (or_intror (or_introl eq_refl)) eq_refl)).
Defined.

End UserExamples.
